(** * suspect: dispatch engine and summary assembler

    A shallow embedding of [suspect/dag/visitor.py] and
    [suspect/summary.py], and the properties of the dispatch engine, of
    the bound loop and of the summary that the specification states.

    Conventions of the embedding.
    - A Python [dict] whose iteration order matters (the handler tables)
      is the list of its items in iteration order; a [dict] that is only
      looked up and stored into is a [gmap].
    - Mutable objects handed to callbacks (the analysis context, and
      whatever a dispatcher callback touches) are passed explicitly: a
      callback takes the state and returns the new one.
    - Callbacks supplied by the caller return normally, and a handler
      table maps classes to callables, never to [None].  The exceptions
      of the model are those the two source files raise themselves, or
      that a subscript or an [assert] of theirs raises. *)

From stdpp Require Import gmap strings list pretty.
From Stdlib Require Import ZArith.

Open Scope Z_scope.
Open Scope string_scope.

(** ** Python outcomes *)

Inductive exn : Type :=
| RuntimeError (msg : string)
| KeyError (node : nat)
| AssertionError.

Inductive outcome (A : Type) : Type :=
| Return (a : A)
| Raise (e : exn).
Arguments Return {A} a.
Arguments Raise {A} e.

(** The value of an outcome that is not an exception. *)
Definition returned {A : Type} (o : outcome A) : option A :=
  match o with Return a => Some a | Raise _ => None end.

(** [d.get(k)] on a dict given by its items. *)
Fixpoint dict_get {K V : Type} `{EqDecision K} (d : list (K * V)) (k : K)
  : option V :=
  match d with
  | [] => None
  | (k', v) :: rest => if decide (k' = k) then Some v else dict_get rest k
  end.

(** ** suspect/dag/visitor.py *)

Module Dag.

(** A class is known by its name; an expression is a node identity
    together with its exact class, [type(expr)]. *)
Definition cls := string.

Record expr : Type := Expr { expr_id : nat; type_ : cls }.

#[global] Instance expr_eq_dec : EqDecision expr.
Proof. solve_decision. Defined.

#[global] Instance expr_countable : Countable expr.
Proof.
  refine (inj_countable' (fun e => (expr_id e, type_ e))
                         (fun p => Expr p.1 p.2) _).
  by intros [].
Defined.

(** What a handler may hand back: [None], a [dict] from child nodes to
    values, or any other object. *)
Inductive pyval (V : Type) : Type :=
| PyNone
| PyDict (items : list (expr * V))
| PyObj (v : V).
Arguments PyNone {V}.
Arguments PyDict {V} items.
Arguments PyObj {V} v.

Definition is_None {V} (r : pyval V) : bool :=
  match r with PyNone => true | _ => false end.

Section Hierarchy.

(** The expression classes live in [suspect.dag.expressions]; all the
    dispatch code asks of them is [isinstance].  [supers c] lists the
    proper superclasses of [c]. *)
Variable supers : cls -> list cls.

Definition issubclass (c t : cls) : bool :=
  bool_decide (c = t) || bool_decide (t ∈ supers c).

Definition isinstance (e : expr) (t : cls) : bool :=
  issubclass (type_ e) t.

(** The loop [for target_type, cb in table.items(): if isinstance(expr,
    target_type): return cb(...)], up to the call: the callback of the
    first item, in iteration order, whose key the expression is an
    instance of. *)
Fixpoint scan_items {H : Type} (items : list (cls * H)) (e : expr)
  : option (cls * H) :=
  match items with
  | [] => None
  | (target_type, cb) :: rest =>
      if isinstance e target_type then Some (target_type, cb)
      else scan_items rest e
  end.

(** No registered handler applies to [e], exactly or by supertype. *)
Definition no_handler {H : Type} (table : list (cls * H)) (e : expr) : Prop :=
  forall t cb, (t, cb) ∈ table -> isinstance e t = false.

(** [t] is registered, matches [e], and every registered class that
    matches [e] is a superclass of [t]. *)
Definition most_specific {H : Type} (table : list (cls * H)) (e : expr)
           (t : cls) : Prop :=
  t ∈ table.*1 /\ isinstance e t = true /\
  forall t', t' ∈ table.*1 -> isinstance e t' = true -> issubclass t t' = true.

Section Dispatcher.

(** Whatever the callbacks of a dispatcher read and write. *)
Context {W V : Type}.

Definition callback : Type := expr -> W -> pyval V * W.

Record Dispatcher : Type := {
  _lookup : list (cls * callback);
  _allow_missing : bool
}.

(** [str(expr)] and [str(type_)], as Python and the expression classes
    define them. *)
Variable str_expr : expr -> string.
Variable str_cls : cls -> string.

Definition could_not_find (e : expr) : exn :=
  RuntimeError ("Could not find callback for " ++ str_expr e
                  ++ " of type " ++ str_cls (type_ e)).

Definition dispatch (self : Dispatcher) (e : expr) (w : W)
  : outcome (pyval V) * W :=
  match dict_get (_lookup self) (type_ e) with
  | Some cb => let '(r, w') := cb e w in (Return r, w')
  | None =>
      match scan_items (_lookup self) e with
      | Some (_, cb) => let '(r, w') := cb e w in (Return r, w')
      | None =>
          if _allow_missing self then (Return PyNone, w)
          else (Raise (could_not_find e), w)
      end
  end.

End Dispatcher.

Section Visitors.

Context {V : Type}.

Definition handler (Ctx : Type) : Type := expr -> Ctx -> pyval V * Ctx.

(** [Visitor]: the abstract [register_handlers] is the one thing a
    subclass supplies; [__init__] keeps its result. *)
Record Visitor (Ctx : Type) : Type := {
  register_handlers : list (cls * handler Ctx)
}.
Arguments register_handlers {Ctx} _.

Definition _registered_handlers {Ctx} (self : Visitor Ctx) :=
  register_handlers self.

Definition visit {Ctx} (self : Visitor Ctx) (e : expr) (ctx : Ctx)
  : pyval V * Ctx :=
  match dict_get (_registered_handlers self) (type_ e) with
  | Some cb => cb e ctx
  | None =>
      match scan_items (_registered_handlers self) e with
      | Some (_, cb) => cb e ctx
      | None => (PyNone, ctx)
      end
  end.

Definition Visitor_call {Ctx} (self : Visitor Ctx) (e : expr) (ctx : Ctx)
  : pyval V * Ctx :=
  visit self e ctx.

(** [ForwardVisitor]: the context is subscripted by the expression. *)
Definition ForwardVisitor_call
           (self : Visitor (gmap expr (pyval V))) (e : expr)
           (ctx : gmap expr (pyval V))
  : pyval V * gmap expr (pyval V) :=
  let '(result, ctx) := visit self e ctx in
  if is_None result then (result, ctx)
  else (result, <[e := result]> ctx).

(** [BackwardVisitor]: a visitor with the abstract [handle_result]. *)
Record BackwardVisitor (Ctx : Type) : Type := {
  backward_base :> Visitor Ctx;
  handle_result : expr -> V -> Ctx -> Ctx
}.
Arguments backward_base {Ctx} _.
Arguments handle_result {Ctx} _ _ _ _.

(** [for k, v in result.items(): self.handle_result(k, v, ctx)] *)
Fixpoint handle_items {Ctx} (self : BackwardVisitor Ctx)
         (items : list (expr * V)) (ctx : Ctx) : Ctx :=
  match items with
  | [] => ctx
  | (k, v) :: rest => handle_items self rest (handle_result self k v ctx)
  end.

Definition must_return_dict : exn :=
  RuntimeError "BackwardVisitor must return dict".

Definition BackwardVisitor_call {Ctx} (self : BackwardVisitor Ctx)
           (e : expr) (ctx : Ctx) : outcome (pyval V) * Ctx :=
  let '(result, ctx) := visit self e ctx in
  match result with
  | PyDict items => (Return result, handle_items self items ctx)
  | PyNone => (Return result, ctx)
  | PyObj _ => (Raise must_return_dict, ctx)
  end.

End Visitors.

End Hierarchy.

Arguments callback : clear implicits.
Arguments Dispatcher : clear implicits.
Arguments handler : clear implicits.
Arguments Visitor : clear implicits.
Arguments BackwardVisitor : clear implicits.
Arguments register_handlers {V Ctx} _.
Arguments backward_base {V Ctx} _.
Arguments handle_result {V Ctx} _ _ _ _.

End Dag.

(** ** suspect/summary.py *)

Module Summary.

(** *** What the summary reads from the rest of the package *)

(** Modelled from the spec: the number type of a bound ([suspect.math]);
    the summary stores bounds and never computes with them. *)
Inductive number : Type := MinusInf | Finite (z : Z) | PlusInf.

(** Modelled from the spec: [suspect.bound.ArbitraryPrecisionBound], a
    pair whose ends may each be absent; [Bound l u] keeps what it is
    given. *)
Record Bound : Type := {
  lower_bound : option number;
  upper_bound : option number
}.

(** Modelled from the spec: the convexity classification and its
    [is_linear]. *)
Inductive Convexity : Type := Linear | Convex | Concave | Unknown.

Definition Convexity_is_linear (cvx : Convexity) : bool :=
  match cvx with Linear => true | _ => false end.

(** Modelled from the spec: the monotonicity classification. *)
Inductive Monotonicity : Type :=
  Nondecreasing | Nonincreasing | Constant | UnknownMonotonicity.

(** Modelled from the spec: [suspect.polynomial_degree.PolynomialDegree],
    a natural number or the non-polynomial value, with its three tests. *)
Record PolynomialDegree : Type := { degree : option nat }.

Definition not_polynomial : PolynomialDegree := {| degree := None |}.

Definition is_polynomial (deg : PolynomialDegree) : bool :=
  match degree deg with Some _ => true | None => false end.

Definition is_linear (deg : PolynomialDegree) : bool :=
  match degree deg with Some d => Nat.eqb d 1 | None => false end.

Definition is_quadratic (deg : PolynomialDegree) : bool :=
  match degree deg with Some d => Nat.eqb d 2 | None => false end.

(** Modelled from the spec: the nodes a problem registers.  Each is a
    DAG node, known to the analysis contexts by its identity. *)
Inductive Domain : Type := REALS | INTEGERS | BINARY.

Record Var : Type := {
  variable_id : nat;
  variable_name : string;
  domain : Domain
}.

Definition is_binary (v : Var) : bool :=
  match domain v with BINARY => true | _ => false end.

Definition is_integer (v : Var) : bool :=
  match domain v with INTEGERS => true | _ => false end.

Inductive Sense : Type := MINIMIZE | MAXIMIZE.

Record Objective : Type := {
  objective_id : nat;
  objective_name : string;
  sense : Sense
}.

Definition is_minimizing (o : Objective) : bool :=
  match sense o with MINIMIZE => true | MAXIMIZE => false end.

Record Constraint : Type := {
  constraint_id : nat;
  constraint_name : string;
  equality : bool
}.

Definition is_equality (c : Constraint) : bool := equality c.

(** The problem DAG, as far as the summary reads it: its name and the
    items of its three name-keyed mappings, in iteration order. *)
Record ProblemDag : Type := {
  problem_name : string;
  problem_variables : list (string * Var);
  problem_objectives : list (string * Objective);
  problem_constraints : list (string * Constraint)
}.

(** The sets of changed nodes the two bound passes report. *)
Definition changes : Type := list nat.

(** The analysis passes imported from [suspect.bound],
    [suspect.propagation] and [suspect.polynomial_degree], and the two
    mappings of the context object the summary subscripts.  Every pass
    may update the context it is given. *)
Class Analysis (Ctx : Type) : Type := {
  ctx_bound : Ctx -> gmap nat Bound;
  ctx_convexity : Ctx -> gmap nat Convexity;
  initialize_bounds : ProblemDag -> Ctx;
  propagate_bounds : ProblemDag -> Ctx -> option changes -> changes * Ctx;
  tighten_bounds : ProblemDag -> Ctx -> changes -> changes * Ctx;
  polynomial_degree : ProblemDag -> Ctx -> gmap nat PolynomialDegree * Ctx;
  propagate_special_structure :
    ProblemDag -> Ctx -> (gmap nat Monotonicity * gmap nat Convexity) * Ctx
}.

(** *** Dicts built by the summary *)

Definition dict (V : Type) : Type := list (string * V).

Definition dict_in {V} (k : string) (d : dict V) : bool :=
  match dict_get d k with Some _ => true | None => false end.

(** [d[k] = v]: replaces the value of a present key, appends a new one. *)
Fixpoint dict_set {V} (d : dict V) (k : string) (v : V) : dict V :=
  match d with
  | [] => [(k, v)]
  | (k', v') :: rest =>
      if decide (k' = k) then (k, v) :: rest else (k', v') :: dict_set rest k v
  end.

Record VariableInfo : Type := {
  vi_name : string;
  vi_type : string;
  vi_lower_bound : option number;
  vi_upper_bound : option number
}.

Record ObjectiveInfo : Type := {
  oi_sense : string;
  oi_convexity : Convexity;
  oi_polynomial_degree : PolynomialDegree;
  oi_lower_bound : option number;
  oi_upper_bound : option number
}.

Record ConstraintInfo : Type := {
  ci_type : string;
  ci_convexity : Convexity;
  ci_polynomial_degree : PolynomialDegree
}.

(** *** ModelInformation *)

Record ModelInformation : Type := {
  name : string;
  variables : dict VariableInfo;
  objectives : dict ObjectiveInfo;
  constraints : dict ConstraintInfo
}.

Definition num_variables (self : ModelInformation) : nat :=
  length (variables self).

Definition num_binaries (self : ModelInformation) : nat :=
  length (filter (fun kv => vi_type kv.2 = "binary") (variables self)).

Definition num_integers (self : ModelInformation) : nat :=
  length (filter (fun kv => vi_type kv.2 = "integer") (variables self)).

Definition num_constraints (self : ModelInformation) : nat :=
  length (constraints self).

Definition conscurvature (self : ModelInformation) : dict Convexity :=
  map (fun kv => (kv.1, ci_convexity kv.2)) (constraints self).

Definition objcurvature (self : ModelInformation) : dict Convexity :=
  map (fun kv => (kv.1, oi_convexity kv.2)) (objectives self).

Definition _objtype (v : ObjectiveInfo) : outcome string :=
  let cvx := oi_convexity v in
  let deg := oi_polynomial_degree v in
  if Convexity_is_linear cvx then
    if is_linear deg then Return "linear" else Raise AssertionError
  else if is_quadratic deg then Return "quadratic"
  else if is_polynomial deg then Return "polynomial"
  else Return "nonlinear".

(** [dict((k, _objtype(v)) for k, v in items)]: the first failing
    assertion ends the construction. *)
Fixpoint objtype_items (items : list (string * ObjectiveInfo))
  : outcome (dict string) :=
  match items with
  | [] => Return []
  | (k, v) :: rest =>
      match _objtype v with
      | Raise e => Raise e
      | Return t =>
          match objtype_items rest with
          | Raise e => Raise e
          | Return d => Return ((k, t) :: d)
          end
      end
  end.

Definition objtype (self : ModelInformation) : outcome (dict string) :=
  objtype_items (objectives self).

(** The objective type as the specification words it, for comparison
    with [_objtype]. *)
Definition spec_objtype (cvx : Convexity) (deg : PolynomialDegree) : string :=
  match cvx, degree deg with
  | Linear, Some 1%nat => "linear"
  | _, Some 2%nat => "quadratic"
  | _, Some d => if (2 <? d)%nat then "polynomial" else "nonlinear"
  | _, None => "nonlinear"
  end.

(** *** The summary computation: warnings are logged, a failed
    subscript raises *)

Definition M (A : Type) : Type := list string -> outcome A * list string.

Definition ret {A} (a : A) : M A := fun ws => (Return a, ws).

Definition bind {A B} (m : M A) (f : A -> M B) : M B :=
  fun ws =>
    match m ws with
    | (Return a, ws') => f a ws'
    | (Raise e, ws') => (Raise e, ws')
    end.

Notation "x <- m ;; k" := (bind m (fun x => k))
  (at level 100, m at next level, right associativity).
Notation "m ;;; k" := (bind m (fun _ => k))
  (at level 100, right associativity).

(** [warnings.warn(msg)] *)
Definition warn (msg : string) : M unit := fun ws => (Return tt, (ws ++ [msg])%list).

(** [m[node]] on a mapping keyed by node identity. *)
Definition subscript {V} (m : gmap nat V) (node : nat) : M V :=
  fun ws =>
    match m !! node with
    | Some v => (Return v, ws)
    | None => (Raise (KeyError node), ws)
    end.

(** [m.get(node, default)] *)
Definition get_default {V} (m : gmap nat V) (node : nat) (d : V) : V :=
  match m !! node with Some v => v | None => d end.

Definition when (b : bool) (m : M unit) : M unit := if b then m else ret tt.

(** The three dict literals of the summary. *)
Definition variable_entry (variable_name : string) (variable : Var)
           (var_bounds : Bound) : VariableInfo :=
  let variable_type :=
    if is_binary variable then "binary"
    else if is_integer variable then "integer"
    else "continuous" in
  {| vi_name := variable_name;
     vi_type := variable_type;
     vi_lower_bound := lower_bound var_bounds;
     vi_upper_bound := upper_bound var_bounds |}.

Definition objective_entry (obj : Objective) (obj_bounds : Bound)
           (cvx : Convexity) (poly : PolynomialDegree) : ObjectiveInfo :=
  let sense := if is_minimizing obj then "min" else "max" in
  {| oi_sense := sense;
     oi_convexity := cvx;
     oi_polynomial_degree := poly;
     oi_lower_bound := lower_bound obj_bounds;
     oi_upper_bound := upper_bound obj_bounds |}.

Definition constraint_entry (cons_ : Constraint) (cvx : Convexity)
           (poly : PolynomialDegree) : ConstraintInfo :=
  let type_ := if is_equality cons_ then "equality" else "inequality" in
  {| ci_type := type_;
     ci_convexity := cvx;
     ci_polynomial_degree := poly |}.

Section Detect.

Context {Ctx : Type} {analysis : Analysis Ctx}.

(** One pass of the body of [for i in range(max_iter)], with the test
    that precedes the [break]. *)
Definition bound_round (problem : ProblemDag) (ctx : Ctx)
           (changes_tigh : option changes) : changes * changes * Ctx :=
  let '(changes_prop, ctx) := propagate_bounds problem ctx changes_tigh in
  let '(changes_tigh, ctx) := tighten_bounds problem ctx changes_prop in
  (changes_prop, changes_tigh, ctx).

Definition no_change (changes_prop changes_tigh : changes) : bool :=
  Nat.eqb (length changes_tigh) 0 && Nat.eqb (length changes_prop) 0.

(** The loop over the [n] remaining values of [range(max_iter)].  Next
    to the context it returns what each executed round reported, in
    order; the code keeps only the context. *)
Fixpoint bound_loop (problem : ProblemDag) (n : nat) (ctx : Ctx)
         (changes_tigh : option changes)
  : Ctx * list (changes * changes) :=
  match n with
  | O => (ctx, [])
  | S n' =>
      let '(changes_prop, changes_tigh, ctx) :=
        bound_round problem ctx changes_tigh in
      if no_change changes_prop changes_tigh
      then (ctx, [(changes_prop, changes_tigh)])
      else
        let '(ctx, rounds) := bound_loop problem n' ctx (Some changes_tigh) in
        (ctx, (changes_prop, changes_tigh) :: rounds)
  end.

Fixpoint build_variables (ctx : Ctx) (items : list (string * Var))
         (variables : dict VariableInfo) : M (dict VariableInfo) :=
  match items with
  | [] => ret variables
  | (variable_name, variable) :: rest =>
      var_bounds <- subscript (ctx_bound ctx) (variable_id variable) ;;
      when (dict_in (Summary.variable_name variable) variables)
           (warn ("Duplicate variable " ++ Summary.variable_name variable)) ;;;
      build_variables ctx rest
        (dict_set variables variable_name
                  (variable_entry variable_name variable var_bounds))
  end.

Fixpoint build_objectives (ctx : Ctx)
         (polynomial : gmap nat PolynomialDegree)
         (items : list (string * Objective))
         (objectives : dict ObjectiveInfo) : M (dict ObjectiveInfo) :=
  match items with
  | [] => ret objectives
  | (obj_name, obj) :: rest =>
      when (dict_in obj_name objectives)
           (warn ("Duplicate objective " ++ obj_name)) ;;;
      let obj_bounds :=
        get_default (ctx_bound ctx) (objective_id obj)
                    {| lower_bound := None; upper_bound := None |} in
      cvx <- subscript (ctx_convexity ctx) (objective_id obj) ;;
      poly <- subscript polynomial (objective_id obj) ;;
      build_objectives ctx polynomial rest
        (dict_set objectives (objective_name obj)
                  (objective_entry obj obj_bounds cvx poly))
  end.

Fixpoint build_constraints (ctx : Ctx)
         (polynomial : gmap nat PolynomialDegree)
         (items : list (string * Constraint))
         (constraints : dict ConstraintInfo) : M (dict ConstraintInfo) :=
  match items with
  | [] => ret constraints
  | (cons_name, cons_) :: rest =>
      when (dict_in cons_name constraints)
           (warn ("Duplicate constraint " ++ cons_name)) ;;;
      cvx <- subscript (ctx_convexity ctx) (constraint_id cons_) ;;
      poly <- subscript polynomial (constraint_id cons_) ;;
      build_constraints ctx polynomial rest
        (dict_set constraints cons_name (constraint_entry cons_ cvx poly))
  end.

(** The three dicts of the report and the report itself. *)
Definition summarise (problem : ProblemDag) (ctx : Ctx)
           (polynomial : gmap nat PolynomialDegree) : M ModelInformation :=
  variables <- build_variables ctx (problem_variables problem) [] ;;
  objectives <- build_objectives ctx polynomial (problem_objectives problem) [] ;;
  constraints <- build_constraints ctx polynomial (problem_constraints problem) [] ;;
  ret {| name := problem_name problem;
         variables := variables;
         objectives := objectives;
         constraints := constraints |}.

Definition detect_special_structure (problem : ProblemDag) (max_iter : Z)
  : M ModelInformation :=
  let ctx := initialize_bounds problem in
  let '(ctx, _) := bound_loop problem (Z.to_nat max_iter) ctx None in
  let '(polynomial, ctx) := polynomial_degree problem ctx in
  let '(_, ctx) := propagate_special_structure problem ctx in
  summarise problem ctx polynomial.

(** The call that leaves [max_iter] to its default. *)
Definition detect_special_structure_default (problem : ProblemDag)
  : M ModelInformation :=
  detect_special_structure problem 10.

(** *** Names for the stages of a run, used to state its properties *)

(** What the rounds of the bound loop reported, and the context the
    loop ends with. *)
Definition loop_rounds (problem : ProblemDag) (max_iter : Z)
  : list (changes * changes) :=
  (bound_loop problem (Z.to_nat max_iter) (initialize_bounds problem) None).2.

Definition loop_context (problem : ProblemDag) (max_iter : Z) : Ctx :=
  (bound_loop problem (Z.to_nat max_iter) (initialize_bounds problem) None).1.

(** The degree pass followed by the convexity pass. *)
Definition structure_passes (problem : ProblemDag) (ctx : Ctx)
  : gmap nat PolynomialDegree * Ctx :=
  let '(polynomial, ctx) := polynomial_degree problem ctx in
  let '(_, ctx) := propagate_special_structure problem ctx in
  (polynomial, ctx).

(** The context and the degrees the summary is assembled from. *)
Definition final_context (problem : ProblemDag) (max_iter : Z) : Ctx :=
  (structure_passes problem (loop_context problem max_iter)).2.

Definition final_polynomial (problem : ProblemDag) (max_iter : Z)
  : gmap nat PolynomialDegree :=
  (structure_passes problem (loop_context problem max_iter)).1.

(** [n] rounds one after the other, with no test in between. *)
Fixpoint rounds_unchecked (problem : ProblemDag) (n : nat) (ctx : Ctx)
         (changes_tigh : option changes) : Ctx :=
  match n with
  | O => ctx
  | S n' =>
      let '(_, changes_tigh, ctx) := bound_round problem ctx changes_tigh in
      rounds_unchecked problem n' ctx (Some changes_tigh)
  end.

(** Every subscript of the summary finds its node. *)
Definition lookups_present (problem : ProblemDag) (ctx : Ctx)
           (polynomial : gmap nat PolynomialDegree) : Prop :=
  Forall (fun kv => is_Some (ctx_bound ctx !! variable_id kv.2))
         (problem_variables problem) /\
  Forall (fun kv => is_Some (ctx_convexity ctx !! objective_id kv.2) /\
                    is_Some (polynomial !! objective_id kv.2))
         (problem_objectives problem) /\
  Forall (fun kv => is_Some (ctx_convexity ctx !! constraint_id kv.2) /\
                    is_Some (polynomial !! constraint_id kv.2))
         (problem_constraints problem).

End Detect.

(** *** The shape the three loops share

    An item either yields its entry or fails a subscript.  The warning
    tests the name [checked item] against the names stored so far, the
    entry is stored under [stored item], and the subscripts of an item
    come before its warning test or after it. *)

Section Loop.

Context {A E : Type}.
Variable subscripts_first : bool.
Variable what : string.
Variable checked stored : string * A -> string.
Variable entry : string * A -> outcome E.

Definition item_entry (kv : string * A) : M E := fun ws => (entry kv, ws).

Definition returns (kv : string * A) : Prop := exists e, entry kv = Return e.

Definition item_warning (kv : string * A) (d : dict E) : M unit :=
  when (dict_in (checked kv) d) (warn (what ++ checked kv)).

Fixpoint store_loop (items : list (string * A)) (d : dict E) : M (dict E) :=
  match items with
  | [] => ret d
  | kv :: rest =>
      if subscripts_first then
        e <- item_entry kv ;;
        item_warning kv d ;;;
        store_loop rest (dict_set d (stored kv) e)
      else
        item_warning kv d ;;;
        e <- item_entry kv ;;
        store_loop rest (dict_set d (stored kv) e)
  end.

End Loop.

(** What the subscripts of one item of each loop yield. *)
Definition variable_lookup {Ctx} `{!Analysis Ctx} (ctx : Ctx)
           (kv : string * Var) : outcome VariableInfo :=
  match ctx_bound ctx !! variable_id kv.2 with
  | Some var_bounds => Return (variable_entry kv.1 kv.2 var_bounds)
  | None => Raise (KeyError (variable_id kv.2))
  end.

Definition objective_lookup {Ctx} `{!Analysis Ctx} (ctx : Ctx)
           (polynomial : gmap nat PolynomialDegree)
           (kv : string * Objective) : outcome ObjectiveInfo :=
  match ctx_convexity ctx !! objective_id kv.2 with
  | None => Raise (KeyError (objective_id kv.2))
  | Some cvx =>
      match polynomial !! objective_id kv.2 with
      | None => Raise (KeyError (objective_id kv.2))
      | Some poly =>
          Return (objective_entry kv.2
                    (get_default (ctx_bound ctx) (objective_id kv.2)
                                 {| lower_bound := None; upper_bound := None |})
                    cvx poly)
      end
  end.

Definition constraint_lookup {Ctx} `{!Analysis Ctx} (ctx : Ctx)
           (polynomial : gmap nat PolynomialDegree)
           (kv : string * Constraint) : outcome ConstraintInfo :=
  match ctx_convexity ctx !! constraint_id kv.2 with
  | None => Raise (KeyError (constraint_id kv.2))
  | Some cvx =>
      match polynomial !! constraint_id kv.2 with
      | None => Raise (KeyError (constraint_id kv.2))
      | Some poly => Return (constraint_entry kv.2 cvx poly)
      end
  end.

(** The warnings of a loop that, for each name in turn, warns when the
    name is among those already stored and then stores it. *)
Fixpoint duplicate_warnings (what : string) (stored : gset string)
         (names : list string) : list string :=
  match names with
  | [] => []
  | n :: rest =>
      ((if bool_decide (n ∈ stored) then [(what ++ n)%string] else [])
         ++ duplicate_warnings what ({[n]} ∪ stored) rest)%list
  end.

(** The warnings of a loop that, for each item in turn, warns when the
    name [checked item] is among the names stored so far and then stores
    the item under [stored item]. *)
Fixpoint issued_warnings {A : Type} (what : string)
         (checked stored : string * A -> string) (seen : gset string)
         (items : list (string * A)) : list string :=
  match items with
  | [] => []
  | kv :: rest =>
      ((if bool_decide (checked kv ∈ seen) then [(what ++ checked kv)%string]
        else [])
         ++ issued_warnings what checked stored ({[stored kv]} ∪ seen) rest)%list
  end.

(** The last item of [items] that is stored under the name [k], where
    [key_of] gives the name an item is stored under. *)
Fixpoint last_stored {A} (key_of : string * A -> string) (k : string)
         (items : list (string * A)) : option (string * A) :=
  match items with
  | [] => None
  | kv :: rest =>
      match last_stored key_of k rest with
      | Some kv' => Some kv'
      | None => if decide (key_of kv = k) then Some kv else None
      end
  end.

End Summary.

(** ** Concrete instances *)

Module Examples.

Import Dag Summary.

(** Four classes of [suspect.dag.expressions]:
    [SqrtExpression] < [UnaryFunctionExpression] < [Expression] and
    [Variable] < [Expression]. *)
Definition supers (c : cls) : list cls :=
  if decide (c = "SqrtExpression")
  then ["UnaryFunctionExpression"; "Expression"]
  else if decide (c = "UnaryFunctionExpression") then ["Expression"]
  else if decide (c = "Variable") then ["Expression"]
  else [].

Definition sqrt_x : expr := Expr 7 "SqrtExpression".
Definition var_x : expr := Expr 1 "Variable".

Definition str_expr (e : expr) : string :=
  type_ e ++ "(" ++ pretty (expr_id e) ++ ")".

Definition str_cls (c : cls) : string := "<class '" ++ c ++ "'>".

(** A dispatcher callback that answers with its own name and counts
    its calls. *)
Definition named (n : string) : callback nat string :=
  fun _ calls => (PyObj n, S calls).

Definition general_first : list (cls * callback nat string) :=
  [("Expression", named "on_expression");
   ("UnaryFunctionExpression", named "on_unary")].

Definition specific_first : list (cls * callback nat string) :=
  [("UnaryFunctionExpression", named "on_unary");
   ("Expression", named "on_expression")].

Definition unary_only : list (cls * callback nat string) :=
  [("UnaryFunctionExpression", named "on_unary")].

(** The same two tables for a visitor; the context is left alone. *)
Definition named_handler (n : string) : handler string (gmap expr (pyval string)) :=
  fun _ ctx => (PyObj n, ctx).

Definition visitor_general_first : Visitor string (gmap expr (pyval string)) :=
  {| register_handlers :=
       [("Expression", named_handler "on_expression");
        ("UnaryFunctionExpression", named_handler "on_unary")] |}.

Definition visitor_specific_first : Visitor string (gmap expr (pyval string)) :=
  {| register_handlers :=
       [("UnaryFunctionExpression", named_handler "on_unary");
        ("Expression", named_handler "on_expression")] |}.

Definition visitor_unary_only : Visitor string (gmap expr (pyval string)) :=
  {| register_handlers :=
       [("UnaryFunctionExpression", named_handler "on_unary")] |}.

(** A forward handler with nothing to say. *)
Definition silent : handler string (gmap expr (pyval string)) :=
  fun _ ctx => (PyNone, ctx).

Definition visitor_silent : Visitor string (gmap expr (pyval string)) :=
  {| register_handlers := [("Variable", silent)] |}.

(** A backward visitor whose context is the list of the calls of
    [handle_result], oldest first. *)
Definition recorder {V : Type} (handlers : list (cls * handler V (list (expr * V))))
  : BackwardVisitor V (list (expr * V)) :=
  {| backward_base := {| register_handlers := handlers |};
     handle_result := fun k v calls => (calls ++ [(k, v)])%list |}.

(** A handler for square roots that refines its one child, named by
    identity 1 here, and one that answers with a bare value. *)
Definition sqrt_children : handler Z (list (expr * Z)) :=
  fun _ ctx => (PyDict [(var_x, 0); (Expr 2 "Variable", 5)], ctx).

Definition sqrt_bare : handler Z (list (expr * Z)) :=
  fun _ ctx => (PyObj 3, ctx).

(** An analysis for running the summary: the context carries its
    three mappings and a count of the rounds that still report a change;
    the degree and convexity passes read their mappings off the context. *)
Record ToyCtx : Type := {
  toy_bound : gmap nat Bound;
  toy_convexity : gmap nat Convexity;
  toy_degree : gmap nat PolynomialDegree;
  toy_pending : nat
}.

Definition toy_report (ctx : ToyCtx) : changes :=
  match toy_pending ctx with O => [] | S _ => [0%nat] end.

Definition toy (init : ToyCtx) : Analysis ToyCtx := {|
  ctx_bound := toy_bound;
  ctx_convexity := toy_convexity;
  initialize_bounds := fun _ => init;
  propagate_bounds := fun _ ctx _ => (toy_report ctx, ctx);
  tighten_bounds := fun _ ctx _ =>
    (toy_report ctx,
     {| toy_bound := toy_bound ctx;
        toy_convexity := toy_convexity ctx;
        toy_degree := toy_degree ctx;
        toy_pending := pred (toy_pending ctx) |});
  polynomial_degree := fun _ ctx => (toy_degree ctx, ctx);
  propagate_special_structure := fun _ ctx => ((∅, toy_convexity ctx), ctx)
|}.

Definition bound_of (l u : Z) : Bound :=
  {| lower_bound := Some (Finite l); upper_bound := Some (Finite u) |}.

Definition deg (d : nat) : PolynomialDegree := {| degree := Some d |}.

(** min x*x subject to x + b = 1, with x in [0, 5] and b binary; the
    objective has no bound of its own. *)
Definition small_problem : ProblemDag := {|
  problem_name := "small";
  problem_variables :=
    [("x", {| variable_id := 1; variable_name := "x"; domain := REALS |});
     ("b", {| variable_id := 2; variable_name := "b"; domain := BINARY |})];
  problem_objectives :=
    [("obj", {| objective_id := 10; objective_name := "obj"; sense := MINIMIZE |})];
  problem_constraints :=
    [("c1", {| constraint_id := 20; constraint_name := "c1"; equality := true |})]
|}.

Definition small_context (pending : nat) : ToyCtx := {|
  toy_bound := <[1%nat := bound_of 0 5]> (<[2%nat := bound_of 0 1]> ∅);
  toy_convexity := <[10%nat := Convex]> (<[20%nat := Linear]> ∅);
  toy_degree := <[10%nat := deg 2]> (<[20%nat := deg 1]> ∅);
  toy_pending := pending
|}.

(** Two objectives that carry the same name, registered under two keys. *)
Definition twice_named : ProblemDag := {|
  problem_name := "twice";
  problem_variables := [];
  problem_objectives :=
    [("a", {| objective_id := 10; objective_name := "b"; sense := MINIMIZE |});
     ("b", {| objective_id := 11; objective_name := "b"; sense := MAXIMIZE |})];
  problem_constraints := []
|}.

Definition twice_context : ToyCtx := {|
  toy_bound := ∅;
  toy_convexity := <[10%nat := Convex]> (<[11%nat := Concave]> ∅);
  toy_degree := <[10%nat := deg 2]> (<[11%nat := deg 2]> ∅);
  toy_pending := 0
|}.

(** The variable [b] of the small problem is left out of the bounds. *)
Definition unbounded_variable_context : ToyCtx := {|
  toy_bound := <[1%nat := bound_of 0 5]> ∅;
  toy_convexity := <[10%nat := Convex]> (<[20%nat := Linear]> ∅);
  toy_degree := <[10%nat := deg 2]> (<[20%nat := deg 1]> ∅);
  toy_pending := 0
|}.

(** The table that registers [Expression] first, completed by a handler
    for square roots themselves. *)
Definition with_sqrt : list (cls * callback nat string) :=
  (general_first ++ [("SqrtExpression", named "on_sqrt")])%list.

Definition visitor_with_sqrt : Visitor string (gmap expr (pyval string)) :=
  {| register_handlers :=
       [("Expression", named_handler "on_expression");
        ("UnaryFunctionExpression", named_handler "on_unary");
        ("SqrtExpression", named_handler "on_sqrt")] |}.

(** A backward visitor whose context is one upper bound; a result for a
    child is merged by taking the smaller of the two. *)
Definition tightener : BackwardVisitor Z Z :=
  {| backward_base :=
       {| register_handlers :=
            [("SqrtExpression",
              fun _ ctx => (PyDict [(var_x, 4); (Expr 2 "Variable", 12)], ctx))] |};
     handle_result := fun _ v ctx => Z.min v ctx |}.

(** A report with one objective of degree 1 whose convexity is not
    known. *)
Definition unknown_linear : ModelInformation := {|
  name := "unknown";
  variables := [];
  objectives :=
    [("obj", {| oi_sense := "min"; oi_convexity := Unknown;
                oi_polynomial_degree := deg 1;
                oi_lower_bound := None; oi_upper_bound := None |})];
  constraints := []
|}.

End Examples.

(** * Properties of the dispatch engine *)

Import Dag Summary.

Section DispatchFacts.

Variable supers : cls -> list cls.

Lemma isinstance_own_type (e : expr) : isinstance supers e (type_ e) = true.
Proof.
  unfold isinstance, issubclass.
  by rewrite bool_decide_eq_true_2.
Qed.

Lemma no_handler_tail {H : Type} (kv : cls * H) (table : list (cls * H)) e :
  no_handler supers (kv :: table) e -> no_handler supers table e.
Proof.
  intros Hno t cb Hin. apply (Hno t cb). by right.
Qed.

Lemma no_handler_get {H : Type} (table : list (cls * H)) e :
  no_handler supers table e -> dict_get table (type_ e) = None.
Proof.
  induction table as [|[t cb] table IH]; intros Hno; first done.
  cbn. destruct (decide (t = type_ e)) as [->|_].
  - pose proof (Hno (type_ e) cb (list_elem_of_here _ _)) as Hf.
    by rewrite isinstance_own_type in Hf.
  - apply IH. by eapply no_handler_tail.
Qed.

Lemma no_handler_scan {H : Type} (table : list (cls * H)) e :
  no_handler supers table e -> scan_items supers table e = None.
Proof.
  induction table as [|[t cb] table IH]; intros Hno; first done.
  cbn. rewrite (Hno t cb (list_elem_of_here _ _)).
  apply IH. by eapply no_handler_tail.
Qed.

(** The scan answers with the first item, in iteration order, whose
    class the expression is an instance of. *)
Lemma scan_items_first {H : Type} (table : list (cls * H)) e t cb :
  scan_items supers table e = Some (t, cb) ->
  exists before after,
    table = (before ++ (t, cb) :: after)%list /\
    isinstance supers e t = true /\
    Forall (fun kv => isinstance supers e kv.1 = false) before.
Proof.
  induction table as [|[t' cb'] table IH]; first done.
  cbn. destruct (isinstance supers e t') eqn:Hi.
  - intros [= -> ->]. by exists [], table.
  - intros Hs. destruct (IH Hs) as (before & after & -> & Ht & Hb).
    exists ((t', cb') :: before), after. split_and!; [done | done |].
    by constructor.
Qed.

Lemma visit_no_handler {V Ctx : Type} (self : Visitor V Ctx) e (ctx : Ctx) :
  no_handler supers (_registered_handlers self) e ->
  visit supers self e ctx = (PyNone, ctx).
Proof.
  intros Hno. unfold visit.
  by rewrite (no_handler_get _ _ Hno), (no_handler_scan _ _ Hno).
Qed.

(** C6. When no registered handler applies to the expression, neither by
    its exact type nor by a supertype, [Dispatcher.dispatch] raises the
    lookup failure if [allow_missing] is not set and returns [None] if it
    is set.  The failure is the outcome of the call itself: no callback
    has run (the state the callbacks work on is untouched), so nothing is
    tried a second time. *)
Theorem dispatch_without_handler {W V : Type} (str_expr : expr -> string)
        (str_cls : cls -> string) (self : Dispatcher W V) (e : expr) (w : W) :
  no_handler supers (_lookup self) e ->
  (_allow_missing self = false ->
   dispatch supers str_expr str_cls self e w = (Raise (could_not_find str_expr str_cls e), w)) /\
  (_allow_missing self = true ->
   dispatch supers str_expr str_cls self e w = (Return PyNone, w)).
Proof.
  intros Hno. unfold dispatch.
  rewrite (no_handler_get _ _ Hno), (no_handler_scan _ _ Hno).
  split; intros ->; reflexivity.
Qed.

(** C9. [Visitor.visit] has no missing-handler policy and raises nothing
    of its own: on an expression that no registered handler matches,
    exactly or by supertype, it returns [None] and the context is the one
    it was given; so do [Visitor.__call__], [ForwardVisitor.__call__] and
    [BackwardVisitor.__call__], the last without a call of
    [handle_result].  The only exception a backward call raises by itself
    is the one for a malformed result. *)
Theorem visitors_without_handler {V : Type} :
  (forall (Ctx : Type) (self : Visitor V Ctx) e ctx,
      no_handler supers (_registered_handlers self) e ->
      visit supers self e ctx = (PyNone, ctx) /\
      Visitor_call supers self e ctx = (PyNone, ctx)) /\
  (forall (self : Visitor V (gmap expr (pyval V))) e ctx,
      no_handler supers (_registered_handlers self) e ->
      ForwardVisitor_call supers self e ctx = (PyNone, ctx)) /\
  (forall (Ctx : Type) (self : BackwardVisitor V Ctx) e ctx,
      no_handler supers (_registered_handlers self) e ->
      BackwardVisitor_call supers self e ctx = (Return PyNone, ctx)) /\
  (forall (Ctx : Type) (self : BackwardVisitor V Ctx) e ctx x,
      (BackwardVisitor_call supers self e ctx).1 = Raise x ->
      x = must_return_dict).
Proof.
  split_and!.
  - intros Ctx self e ctx Hno. unfold Visitor_call.
    by rewrite (visit_no_handler _ _ _ Hno).
  - intros self e ctx Hno. unfold ForwardVisitor_call.
    by rewrite (visit_no_handler _ _ _ Hno).
  - intros Ctx self e ctx Hno. unfold BackwardVisitor_call.
    by rewrite (visit_no_handler _ _ _ Hno).
  - intros Ctx self e ctx x. unfold BackwardVisitor_call.
    destruct (visit supers self e ctx) as [[| items | v] ctx']; cbn; congruence.
Qed.

(** C7. Whatever the handler of a forward visit hands back is what
    [ForwardVisitor.__call__] returns.  A value other than [None] is
    stored in the context under the expression itself, every other key
    keeping what the handler left there; on [None] the forward visitor
    stores nothing, the context stays as it is after the handler's call,
    which is the context of the call when the handler did not write. *)
Theorem forward_call_stores_result {V : Type}
        (self : Visitor V (gmap expr (pyval V))) (e : expr)
        (ctx ctx' : gmap expr (pyval V)) (result : pyval V) :
  visit supers self e ctx = (result, ctx') ->
  (ForwardVisitor_call supers self e ctx).1 = result /\
  (result <> PyNone ->
   ForwardVisitor_call supers self e ctx = (result, <[e := result]> ctx') /\
   (ForwardVisitor_call supers self e ctx).2 !! e = Some result /\
   forall k, k <> e ->
     (ForwardVisitor_call supers self e ctx).2 !! k = ctx' !! k) /\
  (result = PyNone ->
   ForwardVisitor_call supers self e ctx = (PyNone, ctx') /\
   (ctx' = ctx -> (ForwardVisitor_call supers self e ctx).2 = ctx)).
Proof.
  intros Hv. unfold ForwardVisitor_call. rewrite Hv.
  split_and!.
  - by destruct result.
  - intros Hr. destruct result; [done | | ]; cbn;
      (split_and!; [done | by rewrite lookup_insert_eq
                   | by intros k Hk; rewrite lookup_insert_ne]).
  - intros ->. cbn. split; [done | by intros ->].
Qed.

Lemma handle_items_foldl {V Ctx : Type} (self : BackwardVisitor V Ctx)
      (items : list (expr * V)) (ctx : Ctx) :
  handle_items self items ctx =
  foldl (fun c kv => handle_result self kv.1 kv.2 c) ctx items.
Proof.
  revert ctx. induction items as [|[k v] items IH]; intros ctx; first done.
  cbn. apply IH.
Qed.

Lemma recorder_handle_items {V : Type}
      (handlers : list (cls * handler V (list (expr * V))))
      (items calls : list (expr * V)) :
  handle_items (Examples.recorder handlers) items calls = (calls ++ items)%list.
Proof.
  revert calls. induction items as [|[k v] items IH]; intros calls; cbn.
  - by rewrite app_nil_r.
  - rewrite IH. by rewrite <- app_assoc.
Qed.

(** C5. When the handler of a backward visit returns a dict, the dict is
    returned and its entries are passed one by one, in iteration order,
    to [handle_result], each call working on the context the previous one
    left; a visitor that records the calls of [handle_result] ends with
    exactly the entries of the dict appended to its record, one call per
    entry.  When the handler returns a value that is neither a dict nor
    [None], the call raises the runtime error, [handle_result] is not
    called, and the context is as the handler left it. *)
Theorem backward_call_merges_entries {V : Type} :
  (forall (Ctx : Type) (self : BackwardVisitor V Ctx) e ctx ctx' items,
      visit supers self e ctx = (PyDict items, ctx') ->
      BackwardVisitor_call supers self e ctx =
      (Return (PyDict items),
       foldl (fun c kv => handle_result self kv.1 kv.2 c) ctx' items)) /\
  (forall (handlers : list (cls * handler V (list (expr * V))))
          e calls calls' items,
      visit supers (Examples.recorder handlers) e calls = (PyDict items, calls') ->
      (BackwardVisitor_call supers (Examples.recorder handlers) e calls).2 =
      (calls' ++ items)%list) /\
  (forall (Ctx : Type) (self : BackwardVisitor V Ctx) e ctx ctx' v,
      visit supers self e ctx = (PyObj v, ctx') ->
      BackwardVisitor_call supers self e ctx = (Raise must_return_dict, ctx')).
Proof.
  split_and!.
  - intros Ctx self e ctx ctx' items Hv. unfold BackwardVisitor_call.
    rewrite Hv. by rewrite handle_items_foldl.
  - intros handlers e calls calls' items Hv. unfold BackwardVisitor_call.
    rewrite Hv. cbn. apply recorder_handle_items.
  - intros Ctx self e ctx ctx' v Hv. unfold BackwardVisitor_call.
    by rewrite Hv.
Qed.

End DispatchFacts.

(** ** The dispatch engine on concrete tables *)

Section DispatchRuns.

Import Examples.

Lemma unary_only_no_handler {H : Type} (cb : H) :
  no_handler supers [("UnaryFunctionExpression", cb)] var_x.
Proof.
  intros t cb' Hin. apply list_elem_of_singleton in Hin.
  injection Hin as -> _. reflexivity.
Defined.

Lemma dispatch_without_handler_witness :
  no_handler supers unary_only var_x /\
  dispatch supers str_expr str_cls
           {| _lookup := unary_only; _allow_missing := false |} var_x 0%nat =
  (Raise (RuntimeError
            "Could not find callback for Variable(1) of type <class 'Variable'>"),
   0%nat) /\
  dispatch supers str_expr str_cls
           {| _lookup := unary_only; _allow_missing := true |} var_x 0%nat =
  (Return PyNone, 0%nat).
Proof.
  split; [apply unary_only_no_handler |].
  split.
  - apply (dispatch_without_handler supers str_expr str_cls
             {| _lookup := unary_only; _allow_missing := false |} var_x 0%nat
             (unary_only_no_handler _)).
    reflexivity.
  - apply (dispatch_without_handler supers str_expr str_cls
             {| _lookup := unary_only; _allow_missing := true |} var_x 0%nat
             (unary_only_no_handler _)).
    reflexivity.
Defined.

Lemma visitors_without_handler_witness :
  no_handler supers (_registered_handlers visitor_unary_only) var_x /\
  ForwardVisitor_call supers visitor_unary_only var_x ∅ = (PyNone, ∅).
Proof.
  split; [apply unary_only_no_handler |].
  apply (visitors_without_handler supers).
  apply unary_only_no_handler.
Defined.

Lemma forward_call_stores_result_witness :
  visit supers visitor_general_first sqrt_x ∅ = (PyObj "on_expression", ∅) /\
  ForwardVisitor_call supers visitor_general_first sqrt_x ∅ =
  (PyObj "on_expression", <[sqrt_x := PyObj "on_expression"]> ∅) /\
  visit supers visitor_silent var_x ∅ = (PyNone, ∅) /\
  ForwardVisitor_call supers visitor_silent var_x ∅ = (PyNone, ∅).
Proof.
  split; [reflexivity |].
  split.
  - apply (forward_call_stores_result supers visitor_general_first sqrt_x
             ∅ ∅ (PyObj "on_expression") eq_refl).
    discriminate.
  - split; [reflexivity |].
    apply (forward_call_stores_result supers visitor_silent var_x
             ∅ ∅ PyNone eq_refl).
    reflexivity.
Defined.

Lemma backward_call_merges_entries_witness :
  visit supers (recorder [("SqrtExpression", sqrt_children)]) sqrt_x [] =
  (PyDict [(var_x, 0); (Expr 2 "Variable", 5)], []) /\
  (BackwardVisitor_call supers (recorder [("SqrtExpression", sqrt_children)])
                        sqrt_x []).2 =
  [(var_x, 0); (Expr 2 "Variable", 5)] /\
  BackwardVisitor_call supers (recorder [("SqrtExpression", sqrt_bare)])
                       sqrt_x [] =
  (Raise (RuntimeError "BackwardVisitor must return dict"), []).
Proof.
  split; [reflexivity |].
  split.
  - apply (proj1 (proj2 (backward_call_merges_entries supers))
             [("SqrtExpression", sqrt_children)] sqrt_x [] []
             [(var_x, 0); (Expr 2 "Variable", 5)] eq_refl).
  - apply (proj2 (proj2 (backward_call_merges_entries supers))
             _ (recorder [("SqrtExpression", sqrt_bare)]) sqrt_x [] [] 3 eq_refl).
Defined.

(** C1. The fallback follows the iteration order of the handler table,
    not the class hierarchy.  A square root node has no handler of its
    own in a table that registers [Expression] and
    [UnaryFunctionExpression].  With [Expression] registered first both
    [Dispatcher.dispatch] and [Visitor.visit] call its handler, although
    [UnaryFunctionExpression] is registered, matches and is the most
    specific match; with the two registered the other way round the same
    node goes to the handler of [UnaryFunctionExpression]. *)
Theorem fallback_follows_registration_order :
  dict_get general_first (type_ sqrt_x) = None /\
  most_specific supers general_first sqrt_x "UnaryFunctionExpression" /\
  ~ most_specific supers general_first sqrt_x "Expression" /\
  dispatch supers str_expr str_cls
           {| _lookup := general_first; _allow_missing := false |} sqrt_x 0%nat =
  (Return (PyObj "on_expression"), 1%nat) /\
  dispatch supers str_expr str_cls
           {| _lookup := specific_first; _allow_missing := false |} sqrt_x 0%nat =
  (Return (PyObj "on_unary"), 1%nat) /\
  visit supers visitor_general_first sqrt_x ∅ = (PyObj "on_expression", ∅) /\
  visit supers visitor_specific_first sqrt_x ∅ = (PyObj "on_unary", ∅).
Proof.
  split_and!; try reflexivity.
  - split_and!; [set_solver | reflexivity |].
    intros t' Hin _. cbn in Hin.
    apply elem_of_cons in Hin as [-> | Hin]; [reflexivity |].
    apply list_elem_of_singleton in Hin as ->. reflexivity.
  - intros (_ & _ & Hall).
    specialize (Hall "UnaryFunctionExpression").
    assert (issubclass supers "Expression" "UnaryFunctionExpression" = true) as Hs.
    { apply Hall; [set_solver | reflexivity]. }
    discriminate Hs.
Qed.

End DispatchRuns.

(** * Properties of the summary *)

Section DictFacts.

Context {V : Type}.

Lemma dict_get_set (d : dict V) (k k' : string) (v : V) :
  dict_get (dict_set d k v) k' = if decide (k = k') then Some v else dict_get d k'.
Proof.
  induction d as [|[k0 v0] d IH]; cbn.
  - by destruct (decide (k = k')).
  - destruct (decide (k0 = k)) as [->|Hne]; cbn.
    + by destruct (decide (k = k')).
    + destruct (decide (k0 = k')) as [->|Hne'].
      * by rewrite decide_False by congruence.
      * apply IH.
Qed.

Lemma dict_in_keys (d : dict V) (k : string) :
  dict_in k d = bool_decide (k ∈ d.*1).
Proof.
  unfold dict_in. induction d as [|[k0 v0] d IH]; cbn.
  - symmetry. apply bool_decide_eq_false. apply not_elem_of_nil.
  - destruct (decide (k0 = k)) as [->|Hne].
    + symmetry. apply bool_decide_eq_true. apply list_elem_of_here.
    + rewrite IH. apply bool_decide_ext. rewrite elem_of_cons. split; [by right | by intros [->|?]].
Qed.

Lemma dict_set_keys (d : dict V) (k : string) (v : V) :
  list_to_set (C := gset string) (dict_set d k v).*1 = {[k]} ∪ list_to_set d.*1.
Proof.
  induction d as [|[k0 v0] d IH]; cbn.
  - by rewrite (right_id_L ∅ (∪)).
  - destruct (decide (k0 = k)) as [->|Hne]; cbn.
    + by rewrite (assoc_L (∪)), (idemp_L (∪)).
    + rewrite IH. by rewrite !(assoc_L (∪)), (comm_L (∪) {[k0]}).
Qed.

(** Storing keeps the keys of a dict distinct. *)
Lemma dict_set_NoDup (d : dict V) (k : string) (v : V) :
  NoDup d.*1 -> NoDup (dict_set d k v).*1.
Proof.
  induction d as [|[k0 v0] d IH]; cbn; intros Hnd.
  - apply NoDup_singleton.
  - apply NoDup_cons in Hnd as [Hfresh Hnd].
    destruct (decide (k0 = k)) as [->|Hne]; cbn.
    + by apply NoDup_cons.
    + apply NoDup_cons. split; [| by apply IH].
      intros Hin.
      apply (elem_of_list_to_set (C := gset string)) in Hin.
      rewrite dict_set_keys, elem_of_union, elem_of_singleton in Hin.
      destruct Hin as [-> | Hin]; [done |].
      by apply elem_of_list_to_set in Hin.
Qed.

(** In a dict with distinct keys, the items are what [get] finds. *)
Lemma dict_items_get (d : dict V) (k : string) (v : V) :
  NoDup d.*1 -> (k, v) ∈ d <-> dict_get d k = Some v.
Proof.
  induction d as [|[k0 v0] d IH]; cbn; intros Hnd.
  - split; [intros Hin; by apply elem_of_nil in Hin | done].
  - apply NoDup_cons in Hnd as [Hfresh Hnd].
    rewrite elem_of_cons, (IH Hnd).
    destruct (decide (k0 = k)) as [->|Hne].
    + split.
      * intros [[= ->] | Hg]; [done |].
        destruct Hfresh. apply list_elem_of_fmap. exists (k, v).
        split; [done |]. by apply (IH Hnd).
      * intros [= ->]. by left.
    + split; [intros [[= -> ->] | Hg]; done | by right].
Qed.

End DictFacts.

Lemma last_stored_elem {A : Type} (key_of : string * A -> string) k items kv :
  last_stored key_of k items = Some kv -> kv ∈ items.
Proof.
  induction items as [|kv' rest IH]; cbn; first done.
  destruct (last_stored key_of k rest) eqn:Hl.
  - intros [= ->]. right. by apply IH.
  - destruct (decide (key_of kv' = k)); [intros [= ->]; by left | done].
Qed.

Section LoopFacts.

Context {A E : Type}.
Variable subscripts_first : bool.
Variable what : string.
Variable checked stored : string * A -> string.
Variable entry : string * A -> outcome E.

#[local] Abbreviation loop := (store_loop subscripts_first what checked stored entry).

(** One step of the loop, for an item whose subscripts succeed. *)
Lemma store_loop_step kv rest d ws e :
  entry kv = Return e ->
  loop (kv :: rest) d ws =
  loop rest (dict_set d (stored kv) e)
       (ws ++ if dict_in (checked kv) d then [(what ++ checked kv)%string] else [])%list.
Proof.
  intros He. cbn.
  destruct subscripts_first; unfold bind, item_entry, item_warning, when, warn, ret;
    rewrite He; destruct (dict_in (checked kv) d); cbn;
    by rewrite ?app_nil_r.
Qed.

(** One step of the loop, for an item with a failing subscript. *)
Lemma store_loop_fail kv rest d ws x :
  entry kv = Raise x ->
  exists ws', loop (kv :: rest) d ws = (Raise x, ws').
Proof.
  intros He. cbn.
  destruct subscripts_first; unfold bind, item_entry, item_warning, when, warn, ret;
    rewrite ?He; destruct (dict_in (checked kv) d); cbn; rewrite ?He; eauto.
Qed.

Lemma store_loop_total items d ws :
  Forall (returns entry) items -> exists d' ws', loop items d ws = (Return d', ws').
Proof.
  intros Hall. revert d ws.
  induction Hall as [|kv rest [e He] _ IH]; intros d ws.
  - by exists d, ws.
  - rewrite (store_loop_step _ _ _ _ _ He). apply IH.
Qed.

Lemma store_loop_outcome items d ws o ws' :
  loop items d ws = (o, ws') ->
  match o with
  | Return _ => Forall (returns entry) items
  | Raise x => exists kv, kv ∈ items /\ entry kv = Raise x
  end.
Proof.
  revert d ws. induction items as [|kv rest IH]; intros d ws.
  - cbn. unfold ret. intros [= <- _]. constructor.
  - destruct (entry kv) as [e|x] eqn:He.
    + rewrite (store_loop_step _ _ _ _ _ He). intros Hl.
      specialize (IH _ _ Hl). destruct o as [d'|y].
      * constructor; [by exists e | done].
      * destruct IH as (kv' & Hin & Hx). exists kv'. split; [by right | done].
    + destruct (store_loop_fail kv rest d ws x He) as [ws1 Hf].
      rewrite Hf. intros [= <- _]. exists kv. split; [by left | done].
Qed.

(** In the dict a loop returns, a name holds the entry of the last item
    stored under it, or what it held before the loop. *)
Lemma store_loop_last items d ws d' ws' :
  loop items d ws = (Return d', ws') ->
  forall k,
    dict_get d' k =
    match last_stored stored k items with
    | Some kv => returned (entry kv)
    | None => dict_get d k
    end.
Proof.
  revert d ws. induction items as [|kv rest IH]; intros d ws Hl k.
  - cbn in Hl. unfold ret in Hl. by injection Hl as <- _.
  - destruct (entry kv) as [e|x] eqn:He.
    + rewrite (store_loop_step _ _ _ _ _ He) in Hl.
      rewrite (IH _ _ Hl k). cbn.
      destruct (last_stored stored k rest); [done |].
      rewrite dict_get_set. destruct (decide (stored kv = k)); [by rewrite He | done].
    + destruct (store_loop_fail kv rest d ws x He) as [ws1 Hf].
      rewrite Hf in Hl. discriminate.
Qed.

(** Warnings are only ever added to the log, and what a loop returns or
    raises does not depend on the log. *)
Lemma store_loop_log items d ws :
  loop items d ws = ((loop items d []).1, (ws ++ (loop items d []).2)%list).
Proof.
  revert d ws. induction items as [|kv rest IH]; intros d ws.
  - cbn. by rewrite app_nil_r.
  - destruct (entry kv) as [e|x] eqn:He.
    + rewrite !(store_loop_step _ _ _ _ _ He).
      rewrite IH. rewrite (IH _ ([] ++ _)%list). cbn.
      by rewrite app_assoc.
    + cbn. destruct subscripts_first;
        unfold bind, item_entry, item_warning, when, warn, ret;
        rewrite ?He; destruct (dict_in (checked kv) d); cbn; rewrite ?He; cbn;
        by rewrite ?app_nil_r.
Qed.

(** When every item is tested under the name it is stored under, a loop
    that returns has warned once for each item whose name was already
    stored, in order. *)
Lemma store_loop_warnings items d ws d' ws' :
  Forall (fun kv => checked kv = stored kv) items ->
  loop items d ws = (Return d', ws') ->
  ws' = (ws ++ duplicate_warnings what (list_to_set d.*1) (stored <$> items))%list.
Proof.
  intros Hsame. revert d ws.
  induction Hsame as [|kv rest Hkv _ IH]; intros d ws Hl.
  - cbn in Hl. unfold ret in Hl. injection Hl as _ <-. by rewrite app_nil_r.
  - destruct (entry kv) as [e|x] eqn:He.
    + rewrite (store_loop_step _ _ _ _ _ He) in Hl.
      rewrite (IH _ _ Hl). cbn. rewrite dict_set_keys, <- app_assoc.
      rewrite Hkv, dict_in_keys.
      f_equal. f_equal.
      destruct (bool_decide (stored kv ∈ d.*1)) eqn:Hb.
      * apply bool_decide_eq_true in Hb.
        rewrite bool_decide_eq_true_2; [done | set_solver].
      * apply bool_decide_eq_false in Hb.
        rewrite bool_decide_eq_false_2; [done | set_solver].
    + destruct (store_loop_fail kv rest d ws x He) as [ws1 Hf].
      rewrite Hf in Hl. discriminate.
Qed.

(** A loop that starts from distinct keys returns distinct keys. *)
Lemma store_loop_NoDup items d ws d' ws' :
  NoDup d.*1 -> loop items d ws = (Return d', ws') -> NoDup d'.*1.
Proof.
  revert d ws. induction items as [|kv rest IH]; intros d ws Hnd Hl.
  - cbn in Hl. unfold ret in Hl. by injection Hl as <- _.
  - destruct (entry kv) as [e|x] eqn:He.
    + rewrite (store_loop_step _ _ _ _ _ He) in Hl.
      eapply IH; [| exact Hl]. by apply dict_set_NoDup.
    + destruct (store_loop_fail kv rest d ws x He) as [ws1 Hf].
      rewrite Hf in Hl. discriminate.
Qed.

(** The warnings of a loop that returns: one for each item whose tested
    name was among the names stored at its turn, in order. *)
Lemma store_loop_issued items d ws d' ws' :
  loop items d ws = (Return d', ws') ->
  ws' = (ws ++ issued_warnings what checked stored (list_to_set d.*1) items)%list.
Proof.
  revert d ws. induction items as [|kv rest IH]; intros d ws Hl.
  - cbn in Hl. unfold ret in Hl. injection Hl as _ <-. by rewrite app_nil_r.
  - destruct (entry kv) as [e|x] eqn:He.
    + rewrite (store_loop_step _ _ _ _ _ He) in Hl.
      rewrite (IH _ _ Hl). cbn. rewrite dict_set_keys, <- app_assoc.
      rewrite dict_in_keys.
      f_equal. f_equal.
      destruct (bool_decide (checked kv ∈ d.*1)) eqn:Hb.
      * apply bool_decide_eq_true in Hb.
        rewrite bool_decide_eq_true_2; [done |]. by apply elem_of_list_to_set.
      * apply bool_decide_eq_false in Hb.
        rewrite bool_decide_eq_false_2; [done |].
        intros Hin. by apply elem_of_list_to_set in Hin.
    + destruct (store_loop_fail kv rest d ws x He) as [ws1 Hf].
      rewrite Hf in Hl. discriminate.
Qed.

End LoopFacts.

Section SummaryFacts.

Context {Ctx : Type} {analysis : Analysis Ctx}.

Lemma build_variables_loop (ctx : Ctx) items d ws :
  build_variables ctx items d ws =
  store_loop true "Duplicate variable " (fun kv => variable_name kv.2) fst
             (variable_lookup ctx) items d ws.
Proof.
  revert d ws. induction items as [|[key v] items IH]; intros d ws; first done.
  cbn. unfold bind, subscript, item_entry, item_warning, variable_lookup. cbn.
  destruct (ctx_bound ctx !! variable_id v) as [b|]; [|done].
  destruct (when _ _ ws) as [[[]|x] ws1]; [apply IH | done].
Qed.

Lemma build_objectives_loop (ctx : Ctx) polynomial items d ws :
  build_objectives ctx polynomial items d ws =
  store_loop false "Duplicate objective " fst (fun kv => objective_name kv.2)
             (objective_lookup ctx polynomial) items d ws.
Proof.
  revert d ws. induction items as [|[key o] items IH]; intros d ws; first done.
  cbn. unfold bind, subscript, item_entry, item_warning, objective_lookup. cbn.
  destruct (when _ _ ws) as [[[]|x] ws1]; [|done].
  destruct (ctx_convexity ctx !! objective_id o) as [cvx|]; [|done].
  destruct (polynomial !! objective_id o) as [poly|]; [apply IH | done].
Qed.

Lemma build_constraints_loop (ctx : Ctx) polynomial items d ws :
  build_constraints ctx polynomial items d ws =
  store_loop false "Duplicate constraint " fst fst
             (constraint_lookup ctx polynomial) items d ws.
Proof.
  revert d ws. induction items as [|[key c] items IH]; intros d ws; first done.
  cbn. unfold bind, subscript, item_entry, item_warning, constraint_lookup. cbn.
  destruct (when _ _ ws) as [[[]|x] ws1]; [|done].
  destruct (ctx_convexity ctx !! constraint_id c) as [cvx|]; [|done].
  destruct (polynomial !! constraint_id c) as [poly|]; [apply IH | done].
Qed.

Lemma variable_lookup_returns (ctx : Ctx) kv :
  returns (variable_lookup ctx) kv <-> is_Some (ctx_bound ctx !! variable_id kv.2).
Proof.
  unfold returns, variable_lookup.
  destruct (ctx_bound ctx !! variable_id kv.2); split;
    intros [? ?]; eauto; discriminate.
Qed.

Lemma objective_lookup_returns (ctx : Ctx) polynomial kv :
  returns (objective_lookup ctx polynomial) kv <->
  is_Some (ctx_convexity ctx !! objective_id kv.2) /\
  is_Some (polynomial !! objective_id kv.2).
Proof.
  unfold returns, objective_lookup.
  destruct (ctx_convexity ctx !! objective_id kv.2),
           (polynomial !! objective_id kv.2); split;
    try (intros [? ?]; discriminate); try (intros [[? ?] [? ?]]; discriminate);
    eauto.
Qed.

Lemma constraint_lookup_returns (ctx : Ctx) polynomial kv :
  returns (constraint_lookup ctx polynomial) kv <->
  is_Some (ctx_convexity ctx !! constraint_id kv.2) /\
  is_Some (polynomial !! constraint_id kv.2).
Proof.
  unfold returns, constraint_lookup.
  destruct (ctx_convexity ctx !! constraint_id kv.2),
           (polynomial !! constraint_id kv.2); split;
    try (intros [? ?]; discriminate); try (intros [[? ?] [? ?]]; discriminate);
    eauto.
Qed.

Lemma variable_lookup_raises (ctx : Ctx) kv x :
  variable_lookup ctx kv = Raise x -> x = KeyError (variable_id kv.2).
Proof.
  unfold variable_lookup. destruct (ctx_bound ctx !! _); congruence.
Qed.

Lemma objective_lookup_raises (ctx : Ctx) polynomial kv x :
  objective_lookup ctx polynomial kv = Raise x -> x = KeyError (objective_id kv.2).
Proof.
  unfold objective_lookup.
  destruct (ctx_convexity ctx !! objective_id kv.2),
           (polynomial !! objective_id kv.2); congruence.
Qed.

Lemma constraint_lookup_raises (ctx : Ctx) polynomial kv x :
  constraint_lookup ctx polynomial kv = Raise x -> x = KeyError (constraint_id kv.2).
Proof.
  unfold constraint_lookup.
  destruct (ctx_convexity ctx !! constraint_id kv.2),
           (polynomial !! constraint_id kv.2); congruence.
Qed.

(** *** The bound loop *)

Lemma no_change_spec (changes_prop changes_tigh : changes) :
  no_change changes_prop changes_tigh = true <->
  length changes_tigh = 0%nat /\ length changes_prop = 0%nat.
Proof.
  unfold no_change. rewrite andb_true_iff, !Nat.eqb_eq. tauto.
Qed.

Lemma bound_loop_length problem n (ctx : Ctx) changes_tigh :
  (length (bound_loop problem n ctx changes_tigh).2 <= n)%nat.
Proof.
  revert ctx changes_tigh. induction n as [|n IH]; intros ctx ct; cbn; first done.
  destruct (bound_round problem ctx ct) as [[cp ct'] ctx'].
  destruct (no_change cp ct'); cbn; [lia |].
  specialize (IH ctx' (Some ct')).
  destruct (bound_loop problem n ctx' (Some ct')) as [ctx2 rounds]. cbn in *. lia.
Qed.

(** A round that reports no change is the last one. *)
Lemma bound_loop_stops problem n (ctx : Ctx) changes_tigh i r :
  (bound_loop problem n ctx changes_tigh).2 !! i = Some r ->
  no_change r.1 r.2 = true ->
  length (bound_loop problem n ctx changes_tigh).2 = S i.
Proof.
  revert ctx changes_tigh i. induction n as [|n IH]; intros ctx ct i; cbn; first done.
  destruct (bound_round problem ctx ct) as [[cp ct'] ctx'].
  destruct (no_change cp ct') eqn:Hnc; cbn.
  - destruct i as [|i]; [done | by cbn].
  - specialize (IH ctx' (Some ct')).
    destruct (bound_loop problem n ctx' (Some ct')) as [ctx2 rounds]. cbn in *.
    destruct i as [|i]; cbn.
    + intros [= <-]. cbn. congruence.
    + intros Hr Hz. f_equal. by eapply IH.
Qed.

(** The loop ends before its last round only after a round that reports
    no change. *)
Lemma bound_loop_early problem n (ctx : Ctx) changes_tigh :
  (length (bound_loop problem n ctx changes_tigh).2 < n)%nat ->
  exists r, last (bound_loop problem n ctx changes_tigh).2 = Some r /\
            no_change r.1 r.2 = true.
Proof.
  revert ctx changes_tigh. induction n as [|n IH]; intros ctx ct; cbn; first lia.
  destruct (bound_round problem ctx ct) as [[cp ct'] ctx'].
  destruct (no_change cp ct') eqn:Hnc; cbn.
  - intros _. by exists (cp, ct').
  - specialize (IH ctx' (Some ct')).
    destruct (bound_loop problem n ctx' (Some ct')) as [ctx2 rounds]. cbn in *.
    intros Hlt. destruct IH as (r & Hlast & Hr); [lia |].
    exists r. split; [| done].
    destruct rounds; [done | by cbn].
Qed.

(** A loop none of whose rounds reports "no change" runs all its rounds,
    and ends with the context of that many rounds. *)
Lemma bound_loop_exhausted problem n (ctx : Ctx) changes_tigh :
  Forall (fun r => no_change r.1 r.2 = false)
         (bound_loop problem n ctx changes_tigh).2 ->
  length (bound_loop problem n ctx changes_tigh).2 = n /\
  (bound_loop problem n ctx changes_tigh).1 =
  rounds_unchecked problem n ctx changes_tigh.
Proof.
  revert ctx changes_tigh. induction n as [|n IH]; intros ctx ct; cbn; first done.
  destruct (bound_round problem ctx ct) as [[cp ct'] ctx'].
  destruct (no_change cp ct') eqn:Hnc; cbn.
  - intros Hall. apply Forall_cons_1 in Hall as [Hf _]. cbn in Hf. congruence.
  - specialize (IH ctx' (Some ct')).
    destruct (bound_loop problem n ctx' (Some ct')) as [ctx2 rounds]. cbn in *.
    intros Hall. apply Forall_cons_1 in Hall as [_ Hall].
    destruct (IH Hall) as [-> ->]. done.
Qed.

(** *** The run as a whole *)

Lemma detect_special_structure_stages problem max_iter :
  detect_special_structure problem max_iter =
  summarise problem (final_context problem max_iter)
            (final_polynomial problem max_iter).
Proof.
  unfold detect_special_structure, final_context, final_polynomial,
    structure_passes, loop_context.
  destruct (bound_loop _ _ _ _) as [ctx rounds]. cbn.
  destruct (polynomial_degree problem ctx) as [polynomial ctx1].
  by destruct (propagate_special_structure problem ctx1) as [mc ctx2].
Qed.

(** The summary returns when every subscript finds its node, and raises
    a [KeyError] otherwise. *)
Lemma summarise_cases problem (ctx : Ctx) polynomial ws :
  (lookups_present problem ctx polynomial /\
   exists dv dobj dc ws1 ws2 ws3,
     build_variables ctx (problem_variables problem) [] ws = (Return dv, ws1) /\
     build_objectives ctx polynomial (problem_objectives problem) [] ws1 =
     (Return dobj, ws2) /\
     build_constraints ctx polynomial (problem_constraints problem) [] ws2 =
     (Return dc, ws3) /\
     summarise problem ctx polynomial ws =
     (Return {| name := problem_name problem; variables := dv;
                objectives := dobj; constraints := dc |}, ws3)) \/
  (~ lookups_present problem ctx polynomial /\
   exists node ws', summarise problem ctx polynomial ws = (Raise (KeyError node), ws')).
Proof.
  unfold summarise, bind, lookups_present.
  destruct (build_variables ctx (problem_variables problem) [] ws)
    as [[dv|x] ws1] eqn:Hv.
  2:{ right. rewrite build_variables_loop in Hv.
      apply store_loop_outcome in Hv as (kv & Hin & Hx).
      pose proof (variable_lookup_raises _ _ _ Hx) as ->.
      split; [| eauto].
      intros (Hall & _). rewrite Forall_forall in Hall.
      apply Hall, variable_lookup_returns in Hin as [e He]. congruence. }
  destruct (build_objectives ctx polynomial (problem_objectives problem) [] ws1)
    as [[dobj|x] ws2] eqn:Ho.
  2:{ right. rewrite build_objectives_loop in Ho.
      apply store_loop_outcome in Ho as (kv & Hin & Hx).
      pose proof (objective_lookup_raises _ _ _ _ Hx) as ->.
      split; [| eauto].
      intros (_ & Hall & _). rewrite Forall_forall in Hall.
      apply Hall, objective_lookup_returns in Hin as [e He]. congruence. }
  destruct (build_constraints ctx polynomial (problem_constraints problem) [] ws2)
    as [[dc|x] ws3] eqn:Hc.
  2:{ right. rewrite build_constraints_loop in Hc.
      apply store_loop_outcome in Hc as (kv & Hin & Hx).
      pose proof (constraint_lookup_raises _ _ _ _ Hx) as ->.
      split; [| eauto].
      intros (_ & _ & Hall). rewrite Forall_forall in Hall.
      apply Hall, constraint_lookup_returns in Hin as [e He]. congruence. }
  left. split.
  - rewrite build_variables_loop in Hv. apply store_loop_outcome in Hv.
    rewrite build_objectives_loop in Ho. apply store_loop_outcome in Ho.
    rewrite build_constraints_loop in Hc. apply store_loop_outcome in Hc.
    split_and!.
    + eapply Forall_impl; [exact Hv |]. intros kv. apply variable_lookup_returns.
    + eapply Forall_impl; [exact Ho |]. intros kv. apply objective_lookup_returns.
    + eapply Forall_impl; [exact Hc |]. intros kv. apply constraint_lookup_returns.
  - by exists dv, dobj, dc, ws1, ws2, ws3.
Qed.

Lemma summarise_total problem (ctx : Ctx) polynomial ws :
  lookups_present problem ctx polynomial ->
  exists mi ws', summarise problem ctx polynomial ws = (Return mi, ws') /\
                 name mi = problem_name problem.
Proof.
  intros Hp. destruct (summarise_cases problem ctx polynomial ws)
    as [(_ & dv & dobj & dc & ws1 & ws2 & ws3 & _ & _ & _ & ->) | [Hn _]].
  - eauto.
  - done.
Qed.

Lemma summarise_raises problem (ctx : Ctx) polynomial ws :
  ~ lookups_present problem ctx polynomial ->
  exists node ws', summarise problem ctx polynomial ws = (Raise (KeyError node), ws').
Proof.
  intros Hn. destruct (summarise_cases problem ctx polynomial ws)
    as [[Hp _] | [_ Hr]]; done.
Qed.

(** C4. For a non-negative [max_iter] the loop of
    [detect_special_structure] executes at most [max_iter] rounds of
    propagate and tighten.  A round in which neither step reports a
    change is the last round executed, and the loop executes fewer than
    [max_iter] rounds only when its last round was such a round.  A call
    that leaves [max_iter] out runs with 10. *)
Theorem bound_loop_rounds_bounded problem max_iter :
  0 <= max_iter ->
  Z.of_nat (length (loop_rounds problem max_iter)) <= max_iter /\
  (forall i changes_prop changes_tigh,
      loop_rounds problem max_iter !! i = Some (changes_prop, changes_tigh) ->
      length changes_prop = 0%nat -> length changes_tigh = 0%nat ->
      length (loop_rounds problem max_iter) = S i) /\
  (Z.of_nat (length (loop_rounds problem max_iter)) < max_iter ->
   exists changes_prop changes_tigh,
     last (loop_rounds problem max_iter) = Some (changes_prop, changes_tigh) /\
     length changes_prop = 0%nat /\ length changes_tigh = 0%nat) /\
  detect_special_structure_default problem =
  detect_special_structure problem 10.
Proof.
  intros Hpos. unfold loop_rounds. split_and!.
  - pose proof (bound_loop_length problem (Z.to_nat max_iter)
                  (initialize_bounds problem) None). lia.
  - intros i cp ct Hr Hp Ht.
    apply (bound_loop_stops _ _ _ _ _ _ Hr). cbn.
    apply no_change_spec. done.
  - intros Hlt.
    destruct (bound_loop_early problem (Z.to_nat max_iter)
                (initialize_bounds problem) None) as ([cp ct] & Hlast & Hnc);
      [lia |].
    apply no_change_spec in Hnc as [Ht Hp]. by exists cp, ct.
  - reflexivity.
Qed.

(** C8. A run whose every round reported a change has executed all its
    [max_iter] rounds without reaching a fixed point.  It then goes on as
    any other run: the degree pass and the convexity pass are applied to
    the context those rounds produced and the report is assembled from
    the result.  The report is returned whenever the subscripts of the
    summary find their nodes, and the only exception the run can raise
    is a [KeyError] of such a subscript; the number of rounds is not one. *)
Theorem cap_without_convergence problem max_iter ws :
  Forall (fun r => no_change r.1 r.2 = false) (loop_rounds problem max_iter) ->
  length (loop_rounds problem max_iter) = Z.to_nat max_iter /\
  final_context problem max_iter =
  (structure_passes problem
     (rounds_unchecked problem (Z.to_nat max_iter)
                       (initialize_bounds problem) None)).2 /\
  final_polynomial problem max_iter =
  (structure_passes problem
     (rounds_unchecked problem (Z.to_nat max_iter)
                       (initialize_bounds problem) None)).1 /\
  detect_special_structure problem max_iter ws =
  summarise problem (final_context problem max_iter)
            (final_polynomial problem max_iter) ws /\
  (lookups_present problem (final_context problem max_iter)
                   (final_polynomial problem max_iter) ->
   exists mi ws',
     detect_special_structure problem max_iter ws = (Return mi, ws') /\
     name mi = problem_name problem) /\
  (forall x ws',
      detect_special_structure problem max_iter ws = (Raise x, ws') ->
      exists node, x = KeyError node).
Proof.
  intros Hall. unfold loop_rounds in Hall.
  destruct (bound_loop_exhausted _ _ _ _ Hall) as [Hlen Hctx].
  rewrite detect_special_structure_stages.
  unfold final_context, final_polynomial, loop_context, loop_rounds.
  rewrite Hctx. split_and!; try done.
  - apply summarise_total.
  - intros x ws' Hr.
    destruct (summarise_cases problem
                (structure_passes problem
                   (rounds_unchecked problem (Z.to_nat max_iter)
                                     (initialize_bounds problem) None)).2
                (structure_passes problem
                   (rounds_unchecked problem (Z.to_nat max_iter)
                                     (initialize_bounds problem) None)).1 ws)
      as [(_ & dv & dobj & dc & ws1 & ws2 & ws3 & _ & _ & _ & Hs)
         | (_ & node & ws1 & Hs)];
      rewrite Hs in Hr; [discriminate |].
    injection Hr as <- _. by exists node.
Qed.

(** C10. Let the context and the degrees be those the summary is
    assembled from.  When every variable has a bound and every objective
    and constraint has a convexity and a degree, the report is returned,
    and an objective without an entry among the bounds is reported with
    both [lower_bound] and [upper_bound] absent.  A variable without a
    bound, or an objective or a constraint without a convexity or without
    a degree, makes the run raise a [KeyError]. *)
Theorem summary_lookups problem max_iter ws :
  (lookups_present problem (final_context problem max_iter)
                   (final_polynomial problem max_iter) ->
   exists mi ws',
     detect_special_structure problem max_iter ws = (Return mi, ws') /\
     forall kv,
       last_stored (fun kv => objective_name kv.2) (objective_name kv.2)
                   (problem_objectives problem) = Some kv ->
       ctx_bound (final_context problem max_iter) !! objective_id kv.2 = None ->
       exists info,
         dict_get (objectives mi) (objective_name kv.2) = Some info /\
         oi_lower_bound info = None /\ oi_upper_bound info = None) /\
  (Exists (fun kv => ctx_bound (final_context problem max_iter)
                       !! variable_id kv.2 = None)
          (problem_variables problem) ->
   exists node ws',
     detect_special_structure problem max_iter ws = (Raise (KeyError node), ws')) /\
  (Exists (fun kv => ctx_convexity (final_context problem max_iter)
                       !! objective_id kv.2 = None \/
                     final_polynomial problem max_iter
                       !! objective_id kv.2 = None)
          (problem_objectives problem) ->
   exists node ws',
     detect_special_structure problem max_iter ws = (Raise (KeyError node), ws')) /\
  (Exists (fun kv => ctx_convexity (final_context problem max_iter)
                       !! constraint_id kv.2 = None \/
                     final_polynomial problem max_iter
                       !! constraint_id kv.2 = None)
          (problem_constraints problem) ->
   exists node ws',
     detect_special_structure problem max_iter ws = (Raise (KeyError node), ws')).
Proof.
  rewrite detect_special_structure_stages.
  set (ctx := final_context problem max_iter).
  set (polynomial := final_polynomial problem max_iter).
  split_and!.
  - intros Hp.
    destruct (summarise_cases problem ctx polynomial ws)
      as [(_ & dv & dobj & dc & ws1 & ws2 & ws3 & _ & Ho & _ & ->) | [Hn _]];
      [| done].
    eexists _, _. split; [done |]. cbn.
    intros kv Hlast Hb.
    rewrite build_objectives_loop in Ho.
    pose proof (store_loop_last _ _ _ _ _ _ _ _ _ _ Ho (objective_name kv.2)) as Hg.
    rewrite Hlast in Hg.
    destruct Hp as (_ & Hall & _). rewrite Forall_forall in Hall.
    pose proof (last_stored_elem _ _ _ _ Hlast) as Hin.
    destruct (Hall _ Hin) as [[cvx Hc] [poly Hd]].
    unfold objective_lookup in Hg. rewrite Hc, Hd in Hg. cbn in Hg.
    eexists. split; [exact Hg |].
    unfold get_default. by rewrite Hb.
  - intros Hex. apply summarise_raises. intros (Hall & _ & _).
    apply Exists_exists in Hex as (kv & Hin & Hnone).
    rewrite Forall_forall in Hall. destruct (Hall _ Hin) as [b Hb]. congruence.
  - intros Hex. apply summarise_raises. intros (_ & Hall & _).
    apply Exists_exists in Hex as (kv & Hin & Hnone).
    rewrite Forall_forall in Hall.
    destruct (Hall _ Hin) as [[cvx Hc] [poly Hd]].
    destruct Hnone; congruence.
  - intros Hex. apply summarise_raises. intros (_ & _ & Hall).
    apply Exists_exists in Hex as (kv & Hin & Hnone).
    rewrite Forall_forall in Hall.
    destruct (Hall _ Hin) as [[cvx Hc] [poly Hd]].
    destruct Hnone; congruence.
Qed.

(** *** Duplicate names *)

Lemma build_variables_log (ctx : Ctx) items d ws :
  build_variables ctx items d ws =
  ((build_variables ctx items d []).1,
   (ws ++ (build_variables ctx items d []).2)%list).
Proof. rewrite !build_variables_loop. apply store_loop_log. Qed.

Lemma build_objectives_log (ctx : Ctx) polynomial items d ws :
  build_objectives ctx polynomial items d ws =
  ((build_objectives ctx polynomial items d []).1,
   (ws ++ (build_objectives ctx polynomial items d []).2)%list).
Proof. rewrite !build_objectives_loop. apply store_loop_log. Qed.

Lemma build_constraints_log (ctx : Ctx) polynomial items d ws :
  build_constraints ctx polynomial items d ws =
  ((build_constraints ctx polynomial items d []).1,
   (ws ++ (build_constraints ctx polynomial items d []).2)%list).
Proof. rewrite !build_constraints_loop. apply store_loop_log. Qed.

(** The warnings already logged have no influence on the summary. *)
Lemma summarise_log problem (ctx : Ctx) polynomial ws :
  summarise problem ctx polynomial ws =
  ((summarise problem ctx polynomial []).1,
   (ws ++ (summarise problem ctx polynomial []).2)%list).
Proof.
  unfold summarise, bind.
  rewrite (build_variables_log ctx _ _ ws).
  destruct (build_variables ctx (problem_variables problem) [] [])
    as [[dv|x] w1]; cbn; [| done].
  rewrite (build_objectives_log ctx _ _ _ (ws ++ w1)).
  rewrite (build_objectives_log ctx _ _ _ w1).
  destruct (build_objectives ctx polynomial (problem_objectives problem) [] [])
    as [[dobj|x] w2]; cbn; [| by rewrite app_assoc].
  rewrite (build_constraints_log ctx _ _ _ ((ws ++ w1) ++ w2)).
  rewrite (build_constraints_log ctx _ _ _ (w1 ++ w2)).
  destruct (build_constraints ctx polynomial (problem_constraints problem) [] [])
    as [[dc|x] w3]; cbn; by rewrite !app_assoc.
Qed.

(** C2, as the code has it.  Let the context and the degrees be those
    the summary is assembled from, and let every subscript of the summary
    find its node.  Then the report is returned, whatever warnings were
    issued: they are added to the log and change nothing else.  Each of
    the three mappings of the report has distinct names, and under a name
    it holds one entry and no other: that of the last item stored under
    the name, every earlier entry having been overwritten; variables and
    constraints are stored under their key in the problem, objectives
    under their own name.  The warnings issued are, in the order of the
    loops, one for each item whose tested name was already a name of the
    mapping at its turn; the name tested is the variable's own name for a
    variable and the key in the problem for an objective and for a
    constraint. *)
Theorem duplicate_names_last_wins problem max_iter :
  lookups_present problem (final_context problem max_iter)
                  (final_polynomial problem max_iter) ->
  exists mi warnings,
    (forall ws, detect_special_structure problem max_iter ws =
                (Return mi, (ws ++ warnings)%list)) /\
    (NoDup (variables mi).*1 /\ NoDup (objectives mi).*1 /\
     NoDup (constraints mi).*1) /\
    (forall k info,
        (k, info) ∈ variables mi <->
        last_stored fst k (problem_variables problem) ≫=
        (fun kv => returned (variable_lookup
                               (final_context problem max_iter) kv)) =
        Some info) /\
    (forall k info,
        (k, info) ∈ objectives mi <->
        last_stored (fun kv => objective_name kv.2) k
                    (problem_objectives problem) ≫=
        (fun kv => returned (objective_lookup
                               (final_context problem max_iter)
                               (final_polynomial problem max_iter) kv)) =
        Some info) /\
    (forall k info,
        (k, info) ∈ constraints mi <->
        last_stored fst k (problem_constraints problem) ≫=
        (fun kv => returned (constraint_lookup
                               (final_context problem max_iter)
                               (final_polynomial problem max_iter) kv)) =
        Some info) /\
    (forall k, dict_get (variables mi) k =
               last_stored fst k (problem_variables problem) ≫=
               fun kv => returned (variable_lookup
                                     (final_context problem max_iter) kv)) /\
    (forall k, dict_get (objectives mi) k =
               last_stored (fun kv => objective_name kv.2) k
                           (problem_objectives problem) ≫=
               fun kv => returned (objective_lookup
                                     (final_context problem max_iter)
                                     (final_polynomial problem max_iter) kv)) /\
    (forall k, dict_get (constraints mi) k =
               last_stored fst k (problem_constraints problem) ≫=
               fun kv => returned (constraint_lookup
                                     (final_context problem max_iter)
                                     (final_polynomial problem max_iter) kv)) /\
    warnings =
    (issued_warnings "Duplicate variable " (fun kv => variable_name kv.2) fst
                     ∅ (problem_variables problem)
       ++ issued_warnings "Duplicate objective " fst
            (fun kv => objective_name kv.2) ∅ (problem_objectives problem)
       ++ issued_warnings "Duplicate constraint " fst fst
            ∅ (problem_constraints problem))%list.
Proof.
  rewrite detect_special_structure_stages.
  set (ctx := final_context problem max_iter).
  set (polynomial := final_polynomial problem max_iter).
  intros Hp.
  destruct (summarise_cases problem ctx polynomial [])
    as [(_ & dv & dobj & dc & ws1 & ws2 & ws3 & Hv & Ho & Hc & Hs) | [Hn _]];
    [| done].
  rewrite build_variables_loop in Hv. rewrite build_objectives_loop in Ho.
  rewrite build_constraints_loop in Hc.
  pose proof (store_loop_NoDup _ _ _ _ _ _ [] _ _ _ (NoDup_nil_2) Hv) as Hnv.
  pose proof (store_loop_NoDup _ _ _ _ _ _ [] _ _ _ (NoDup_nil_2) Ho) as Hno.
  pose proof (store_loop_NoDup _ _ _ _ _ _ [] _ _ _ (NoDup_nil_2) Hc) as Hnc.
  assert (forall k, dict_get dv k =
                    last_stored fst k (problem_variables problem) ≫=
                    fun kv => returned (variable_lookup ctx kv)) as Hgv.
  { intros k. rewrite (store_loop_last _ _ _ _ _ _ _ _ _ _ Hv k).
    by destruct (last_stored fst k (problem_variables problem)). }
  assert (forall k, dict_get dobj k =
                    last_stored (fun kv => objective_name kv.2) k
                                (problem_objectives problem) ≫=
                    fun kv => returned (objective_lookup ctx polynomial kv))
    as Hgo.
  { intros k. rewrite (store_loop_last _ _ _ _ _ _ _ _ _ _ Ho k).
    by destruct (last_stored _ k (problem_objectives problem)). }
  assert (forall k, dict_get dc k =
                    last_stored fst k (problem_constraints problem) ≫=
                    fun kv => returned (constraint_lookup ctx polynomial kv))
    as Hgc.
  { intros k. rewrite (store_loop_last _ _ _ _ _ _ _ _ _ _ Hc k).
    by destruct (last_stored fst k (problem_constraints problem)). }
  eexists _, ws3. split_and!; cbn.
  - intros ws. rewrite summarise_log, Hs. reflexivity.
  - exact Hnv.
  - exact Hno.
  - exact Hnc.
  - intros k info. by rewrite (dict_items_get _ _ _ Hnv), Hgv.
  - intros k info. by rewrite (dict_items_get _ _ _ Hno), Hgo.
  - intros k info. by rewrite (dict_items_get _ _ _ Hnc), Hgc.
  - exact Hgv.
  - exact Hgo.
  - exact Hgc.
  - apply store_loop_issued in Hv. apply store_loop_issued in Ho.
    apply store_loop_issued in Hc. cbn in Hv, Ho, Hc. subst ws1 ws2 ws3.
    by rewrite <- app_assoc.
Qed.

End SummaryFacts.

(** *** The type of an objective *)

Lemma objtype_items_get items d :
  objtype_items items = Return d ->
  d.*1 = items.*1 /\
  forall k, dict_get d k = dict_get items k ≫= fun v => returned (_objtype v).
Proof.
  revert d. induction items as [|[k0 v0] items IH]; intros d; cbn.
  - by intros [= <-].
  - destruct (_objtype v0) as [t|x] eqn:Ht; [| done].
    destruct (objtype_items items) as [d0|x]; [| done].
    intros [= <-]. destruct (IH d0 eq_refl) as [Hk Hg]. split.
    + cbn. by rewrite Hk.
    + intros k. cbn [dict_get fmap list_fmap fst].
      destruct (decide (k0 = k)); [| apply Hg].
      change (Some t = returned (_objtype v0)). by rewrite Ht.
Qed.

Lemma _objtype_asserts v :
  (oi_convexity v = Linear -> degree (oi_polynomial_degree v) = Some 1%nat) ->
  exists t, _objtype v = Return t.
Proof.
  unfold _objtype, is_linear, is_quadratic, is_polynomial.
  destruct (oi_convexity v); cbn; intros Hl.
  - rewrite Hl by done. cbn. eauto.
  - destruct (degree _) as [[|[|[|n]]]|]; cbn; eauto.
  - destruct (degree _) as [[|[|[|n]]]|]; cbn; eauto.
  - destruct (degree _) as [[|[|[|n]]]|]; cbn; eauto.
Qed.

Lemma _objtype_assertion_fails v :
  oi_convexity v = Linear ->
  degree (oi_polynomial_degree v) <> Some 1%nat ->
  _objtype v = Raise AssertionError.
Proof.
  unfold _objtype, is_linear. intros -> Hd. cbn.
  destruct (degree _) as [[|[|n]]|]; cbn; congruence.
Qed.

Lemma _objtype_raises v x : _objtype v = Raise x -> x = AssertionError.
Proof.
  unfold _objtype.
  destruct (Convexity_is_linear (oi_convexity v)),
    (is_linear (oi_polynomial_degree v)),
    (is_quadratic (oi_polynomial_degree v)),
    (is_polynomial (oi_polynomial_degree v)); congruence.
Qed.

(** C3, as the code has it.  [objtype()] maps the name of an objective
    to "linear" when its convexity is linear, the code asserting that
    the degree is then exactly 1; otherwise to "quadratic" when its
    degree is 2, to "polynomial" when its degree is any other natural
    number, and to "nonlinear" when it has no degree.  The mapping is
    returned when every objective of linear convexity has degree 1, and
    the call fails its assertion when one has not. *)
Theorem objtype_by_convexity_then_degree (mi : ModelInformation) :
  (Forall (fun kv => oi_convexity kv.2 = Linear ->
                     degree (oi_polynomial_degree kv.2) = Some 1%nat)
          (objectives mi) ->
   exists d,
     objtype mi = Return d /\ d.*1 = (objectives mi).*1 /\
     forall k v,
       dict_get (objectives mi) k = Some v ->
       exists t,
         dict_get d k = Some t /\
         (oi_convexity v = Linear -> t = "linear") /\
         (oi_convexity v <> Linear ->
          degree (oi_polynomial_degree v) = Some 2%nat -> t = "quadratic") /\
         (oi_convexity v <> Linear ->
          forall n, degree (oi_polynomial_degree v) = Some n -> n <> 2%nat ->
                    t = "polynomial") /\
         (oi_convexity v <> Linear ->
          degree (oi_polynomial_degree v) = None -> t = "nonlinear")) /\
  (Exists (fun kv => oi_convexity kv.2 = Linear /\
                     degree (oi_polynomial_degree kv.2) <> Some 1%nat)
          (objectives mi) ->
   objtype mi = Raise AssertionError).
Proof.
  unfold objtype. split.
  - intros Hall.
    assert (exists d, objtype_items (objectives mi) = Return d) as [d Hd].
    { induction Hall as [|[k v] rest Hv _ [d0 IH]]; cbn; [by eexists |].
      destruct (_objtype_asserts v Hv) as [t ->]. rewrite IH. by eexists. }
    exists d. destruct (objtype_items_get _ _ Hd) as [Hk Hg].
    split_and!; [done | done |].
    intros k v Hkv. rewrite Hg, Hkv. cbn.
    unfold _objtype, is_linear, is_quadratic, is_polynomial.
    destruct (oi_convexity v) eqn:Hc; cbn.
    + assert (degree (oi_polynomial_degree v) = Some 1%nat) as ->.
      { clear -Hall Hkv Hc. induction Hall as [|[k0 v0] rest Hv _ IH];
          cbn in Hkv; [done |].
        destruct (decide (k0 = k)); [| by apply IH].
        injection Hkv as ->. by apply Hv. }
      cbn. eexists. split; [done |]. split_and!; done.
    + destruct (degree (oi_polynomial_degree v)) as [[|[|[|n]]]|]; cbn;
        (eexists; split; [done |]); split_and!; try done;
        intros _ m [= <-] Hm; done.
    + destruct (degree (oi_polynomial_degree v)) as [[|[|[|n]]]|]; cbn;
        (eexists; split; [done |]); split_and!; try done;
        intros _ m [= <-] Hm; done.
    + destruct (degree (oi_polynomial_degree v)) as [[|[|[|n]]]|]; cbn;
        (eexists; split; [done |]); split_and!; try done;
        intros _ m [= <-] Hm; done.
  - intros Hex. induction Hex as [[k v] rest [Hc Hd] | [k v] rest _ IH]; cbn.
    + cbn in Hc, Hd. by rewrite (_objtype_assertion_fails v Hc Hd).
    + destruct (_objtype v) as [t|x] eqn:Ht.
      * by rewrite IH.
      * by rewrite (_objtype_raises _ _ Ht).
Qed.

(** ** The summary on concrete problems *)

Section SummaryRuns.

Import Examples.

Lemma bound_loop_rounds_bounded_witness :
  0 <= 10 /\
  Z.of_nat (length (@loop_rounds _ (toy (small_context 2)) small_problem 10)) <= 10 /\
  @loop_rounds _ (toy (small_context 2)) small_problem 10 =
  [([0%nat], [0%nat]); ([0%nat], [0%nat]); ([], [])].
Proof.
  split; [lia |]. split; [| reflexivity].
  apply (@bound_loop_rounds_bounded _ (toy (small_context 2)) small_problem 10).
  lia.
Defined.

Lemma small_never_converges :
  Forall (fun r => no_change r.1 r.2 = false)
         (@loop_rounds _ (toy (small_context 100)) small_problem 3).
Proof. repeat constructor. Defined.

Lemma small_lookups_present_capped :
  @lookups_present _ (toy (small_context 100)) small_problem
    (@final_context _ (toy (small_context 100)) small_problem 3)
    (@final_polynomial _ (toy (small_context 100)) small_problem 3).
Proof.
  repeat split; repeat constructor; cbn; by eexists.
Defined.

Lemma small_lookups_present :
  @lookups_present _ (toy (small_context 0)) small_problem
    (@final_context _ (toy (small_context 0)) small_problem 10)
    (@final_polynomial _ (toy (small_context 0)) small_problem 10).
Proof.
  repeat split; repeat constructor; cbn; by eexists.
Defined.

Lemma cap_without_convergence_witness :
  Forall (fun r => no_change r.1 r.2 = false)
         (@loop_rounds _ (toy (small_context 100)) small_problem 3) /\
  length (@loop_rounds _ (toy (small_context 100)) small_problem 3) = 3%nat /\
  exists mi ws',
    @detect_special_structure _ (toy (small_context 100)) small_problem 3 [] =
    (Return mi, ws') /\
    name mi = "small".
Proof.
  split; [exact small_never_converges |].
  split.
  - apply (@cap_without_convergence _ (toy (small_context 100)) small_problem 3 []
             small_never_converges).
  - apply (@cap_without_convergence _ (toy (small_context 100)) small_problem 3 []
             small_never_converges).
    apply small_lookups_present_capped.
Defined.

Lemma summary_lookups_witness :
  @lookups_present _ (toy (small_context 0)) small_problem
    (@final_context _ (toy (small_context 0)) small_problem 10)
    (@final_polynomial _ (toy (small_context 0)) small_problem 10) /\
  (exists mi ws',
      @detect_special_structure _ (toy (small_context 0)) small_problem 10 [] =
      (Return mi, ws') /\
      exists info,
        dict_get (objectives mi) "obj" = Some info /\
        oi_lower_bound info = None /\ oi_upper_bound info = None) /\
  exists node ws',
    @detect_special_structure _ (toy unbounded_variable_context) small_problem 10 [] =
    (Raise (KeyError node), ws').
Proof.
  split; [exact small_lookups_present |].
  split.
  - destruct (proj1 (@summary_lookups _ (toy (small_context 0)) small_problem 10 [])
                small_lookups_present) as (mi & ws' & Hrun & Hobj).
    exists mi, ws'. split; [exact Hrun |].
    apply (Hobj ("obj", {| objective_id := 10; objective_name := "obj";
                           sense := MINIMIZE |})); reflexivity.
  - apply (proj1 (proj2 (@summary_lookups _ (toy unbounded_variable_context)
                           small_problem 10 []))).
    right. left. reflexivity.
Defined.

Lemma twice_lookups_present :
  @lookups_present _ (toy twice_context) twice_named
    (@final_context _ (toy twice_context) twice_named 10)
    (@final_polynomial _ (toy twice_context) twice_named 10).
Proof.
  repeat split; repeat constructor; cbn; by eexists.
Defined.

Lemma duplicate_names_last_wins_witness :
  @lookups_present _ (toy twice_context) twice_named
    (@final_context _ (toy twice_context) twice_named 10)
    (@final_polynomial _ (toy twice_context) twice_named 10) /\
  exists mi warnings,
    (forall ws, @detect_special_structure _ (toy twice_context) twice_named 10 ws =
                (Return mi, (ws ++ warnings)%list)) /\
    warnings = ["Duplicate objective b"] /\
    NoDup (objectives mi).*1 /\
    forall info,
      ("b", info) ∈ objectives mi <->
      info = objective_entry
               {| objective_id := 11; objective_name := "b"; sense := MAXIMIZE |}
               {| lower_bound := None; upper_bound := None |} Concave (deg 2).
Proof.
  split; [exact twice_lookups_present |].
  destruct (@duplicate_names_last_wins _ (toy twice_context) twice_named 10
              twice_lookups_present)
    as (mi & warnings & Hrun & (_ & Hnd & _) & _ & Hobj & _ & _ & _ & _ & Hw).
  exists mi, warnings. split; [exact Hrun |].
  split; [rewrite Hw; reflexivity |].
  split; [exact Hnd |].
  intros info. rewrite (Hobj "b" info). cbn.
  split; [by intros [= <-] | by intros ->].
Defined.

(** C2 fails as stated: two objectives carry the name "b"; the warning
    is issued and the report holds the second of them, the maximised
    one, not the first. *)
Lemma duplicate_names_first_does_not_win :
  exists mi,
    @detect_special_structure _ (toy twice_context) twice_named 10 [] =
    (Return mi, ["Duplicate objective b"]) /\
    objectives mi =
    [("b", objective_entry
             {| objective_id := 11; objective_name := "b"; sense := MAXIMIZE |}
             {| lower_bound := None; upper_bound := None |} Concave (deg 2))] /\
    oi_sense <$> dict_get (objectives mi) "b" = Some "max" /\
    oi_sense <$> dict_get (objectives mi) "b" <>
    Some (if is_minimizing {| objective_id := 10; objective_name := "b";
                              sense := MINIMIZE |}
          then "min" else "max").
Proof.
  eexists. split; [reflexivity |]. split; [reflexivity |].
  split; [reflexivity | discriminate].
Qed.

Lemma objtype_by_convexity_then_degree_witness :
  Forall (fun kv => oi_convexity kv.2 = Linear ->
                    degree (oi_polynomial_degree kv.2) = Some 1%nat)
         (objectives unknown_linear) /\
  exists d, objtype unknown_linear = Return d /\
            d.*1 = (objectives unknown_linear).*1.
Proof.
  assert (Forall (fun kv => oi_convexity kv.2 = Linear ->
                            degree (oi_polynomial_degree kv.2) = Some 1%nat)
                 (objectives unknown_linear)) as Hall.
  { repeat constructor; discriminate. }
  split; [exact Hall |].
  destruct (proj1 (objtype_by_convexity_then_degree unknown_linear) Hall)
    as (d & Hd & Hk & _).
  by exists d.
Defined.

(** C3 fails as stated: an objective of degree 1 whose convexity is not
    linear is typed "polynomial", where the specification's wording
    gives "nonlinear". *)
Lemma objtype_degree_one_is_polynomial :
  objtype unknown_linear = Return [("obj", "polynomial")] /\
  spec_objtype Unknown (deg 1) = "nonlinear" /\
  objtype unknown_linear <> Return [("obj", spec_objtype Unknown (deg 1))].
Proof.
  split; [reflexivity |]. split; [reflexivity | discriminate].
Qed.

End SummaryRuns.

(** * Further properties of the dispatch engine *)

Section DispatchMore.

Variable supers : cls -> list cls.

Lemma dict_get_elem {K H : Type} `{EqDecision K} (table : list (K * H)) k cb :
  dict_get table k = Some cb -> (k, cb) ∈ table.
Proof.
  induction table as [|[k' cb'] table IH]; cbn; first done.
  destruct (decide (k' = k)) as [->|_].
  - intros [= ->]. by left.
  - intros Hg. right. by apply IH.
Qed.

Lemma dict_get_unregistered {K H : Type} `{EqDecision K} (table : list (K * H)) k :
  k ∉ table.*1 -> dict_get table k = None.
Proof.
  induction table as [|[k' cb'] table IH]; cbn; first done.
  intros Hn. destruct (decide (k' = k)) as [->|_].
  - destruct Hn. by left.
  - apply IH. intros Hin. apply Hn. by right.
Qed.

Lemma dict_get_registered {K H : Type} `{EqDecision K} (table : list (K * H)) k cb :
  NoDup table.*1 -> (k, cb) ∈ table -> dict_get table k = Some cb.
Proof.
  induction table as [|[k' cb'] table IH]; cbn.
  - intros _ Hin. by apply elem_of_nil in Hin.
  - intros Hnd Hin. apply NoDup_cons in Hnd as [Hfresh Hnd].
    apply elem_of_cons in Hin as [[= <- <-] | Hin].
    + by rewrite decide_True.
    + destruct (decide (k' = k)) as [->|_]; [| by apply IH].
      destruct Hfresh. apply list_elem_of_fmap. by exists (k, cb).
Qed.

Lemma scan_items_skips {H : Type} (before after : list (cls * H)) e t cb :
  Forall (fun kv => isinstance supers e kv.1 = false) before ->
  isinstance supers e t = true ->
  scan_items supers (before ++ (t, cb) :: after) e = Some (t, cb).
Proof.
  intros Hb Ht. induction Hb as [|[t' cb'] before Hf _ IH]; cbn.
  - by rewrite Ht.
  - cbn in Hf. by rewrite Hf.
Qed.

Lemma scan_items_none {H : Type} (table : list (cls * H)) e :
  scan_items supers table e = None -> no_handler supers table e.
Proof.
  induction table as [|[t' cb'] table IH]; cbn.
  - intros _ t cb Hin. by apply elem_of_nil in Hin.
  - destruct (isinstance supers e t') eqn:Hi; [done |].
    intros Hs t cb Hin. apply elem_of_cons in Hin as [[= -> ->] | Hin]; [done |].
    by apply (IH Hs t cb).
Qed.

(** X1. A handler registered for the exact type of the expression is the
    one called, wherever it sits in the table and whatever supertypes
    are registered before it; [allow_missing] plays no part.  The table
    is a dict: its keys are distinct. *)
Theorem exact_handler_wins {W V : Type} (str_expr : expr -> string)
        (str_cls : cls -> string) :
  (forall (self : Dispatcher W V) e w cb,
      NoDup (_lookup self).*1 ->
      (type_ e, cb) ∈ _lookup self ->
      dispatch supers str_expr str_cls self e w = (Return (cb e w).1, (cb e w).2)) /\
  (forall (Ctx : Type) (self : Visitor V Ctx) e ctx cb,
      NoDup (_registered_handlers self).*1 ->
      (type_ e, cb) ∈ _registered_handlers self ->
      visit supers self e ctx = cb e ctx).
Proof.
  split.
  - intros self e w cb Hnd Hin. unfold dispatch.
    rewrite (dict_get_registered _ _ _ Hnd Hin). by destruct (cb e w).
  - intros Ctx self e ctx cb Hnd Hin. unfold visit.
    by rewrite (dict_get_registered _ _ _ Hnd Hin).
Qed.

(** X2. When the exact type of the expression is not registered, the
    handler called is that of the first item of the table, in iteration
    order, whose class the expression is an instance of: the items
    before it are passed over, the items after it are not looked at, and
    [allow_missing] plays no part. *)
Theorem fallback_first_in_iteration_order {W V : Type}
        (str_expr : expr -> string) (str_cls : cls -> string) :
  (forall (self : Dispatcher W V) e w before t cb after,
      _lookup self = (before ++ (t, cb) :: after)%list ->
      type_ e ∉ (_lookup self).*1 ->
      Forall (fun kv => isinstance supers e kv.1 = false) before ->
      isinstance supers e t = true ->
      dispatch supers str_expr str_cls self e w = (Return (cb e w).1, (cb e w).2)) /\
  (forall (Ctx : Type) (self : Visitor V Ctx) e ctx before t cb after,
      _registered_handlers self = (before ++ (t, cb) :: after)%list ->
      type_ e ∉ (_registered_handlers self).*1 ->
      Forall (fun kv => isinstance supers e kv.1 = false) before ->
      isinstance supers e t = true ->
      visit supers self e ctx = cb e ctx).
Proof.
  split.
  - intros self e w before t cb after Htab Hno Hb Ht. unfold dispatch.
    rewrite (dict_get_unregistered _ _ Hno), Htab.
    rewrite (scan_items_skips _ _ _ _ _ Hb Ht). by destruct (cb e w).
  - intros Ctx self e ctx before t cb after Htab Hno Hb Ht. unfold visit.
    rewrite (dict_get_unregistered _ _ Hno), Htab.
    by rewrite (scan_items_skips _ _ _ _ _ Hb Ht).
Qed.

(** X3. What [Dispatcher.dispatch] returns comes from a registered
    callback whose class the expression is an instance of, run once on
    the state of the call, or is the [None] of a dispatcher that allows
    missing handlers and has none for the expression; and it raises only
    the lookup failure, only when it does not allow missing handlers and
    no handler applies. *)
Theorem dispatch_outcome_origin {W V : Type} (str_expr : expr -> string)
        (str_cls : cls -> string) (self : Dispatcher W V) e (w w' : W)
        (o : outcome (pyval V)) :
  dispatch supers str_expr str_cls self e w = (o, w') ->
  match o with
  | Return r =>
      (exists t cb, (t, cb) ∈ _lookup self /\ isinstance supers e t = true /\
                    cb e w = (r, w')) \/
      (no_handler supers (_lookup self) e /\ _allow_missing self = true /\
       r = PyNone /\ w' = w)
  | Raise x =>
      no_handler supers (_lookup self) e /\ _allow_missing self = false /\
      x = could_not_find str_expr str_cls e /\ w' = w
  end.
Proof.
  unfold dispatch.
  destruct (dict_get (_lookup self) (type_ e)) as [cb|] eqn:Hg.
  - destruct (cb e w) as [r w1] eqn:Hcb. intros [= <- <-]. left.
    exists (type_ e), cb. split_and!; [by apply dict_get_elem | | done].
    unfold isinstance, issubclass. by rewrite bool_decide_eq_true_2.
  - destruct (scan_items supers (_lookup self) e) as [[t cb]|] eqn:Hs.
    + destruct (cb e w) as [r w1] eqn:Hcb. intros [= <- <-]. left.
      exists t, cb.
      destruct (scan_items_first supers _ _ _ _ Hs) as (before & after & -> & Ht & _).
      split_and!; [| done | done].
      apply elem_of_app. right. by left.
    + pose proof (scan_items_none _ _ Hs) as Hno.
      destruct (_allow_missing self); intros [= <- <-]; [by right | done].
Qed.

(** X4. [BackwardVisitor.__call__] changes the context through
    [handle_result] and through nothing else: a property of the context
    that holds when the handler returns and that every call of
    [handle_result] keeps holds when the call ends, whatever the handler
    returned. *)
Theorem backward_call_keeps_invariant {V Ctx : Type} (P : Ctx -> Prop)
        (self : BackwardVisitor V Ctx) e ctx :
  P (visit supers self e ctx).2 ->
  (forall k v c, P c -> P (handle_result self k v c)) ->
  P (BackwardVisitor_call supers self e ctx).2.
Proof.
  intros Hv Hkeep. unfold BackwardVisitor_call.
  destruct (visit supers self e ctx) as [[| items | v] ctx']; cbn in *; try done.
  revert ctx' Hv. induction items as [|[k v] items IH]; intros ctx' Hv; cbn.
  - done.
  - apply IH. by apply Hkeep.
Qed.

(** X17. When the exact type of the expression is not registered and
    one registered class only is a class of the expression, the handler
    of that class is called, wherever it sits in the table: with a
    single match the order of registration does not matter. *)
Theorem fallback_single_match {W V : Type} (str_expr : expr -> string)
        (str_cls : cls -> string) :
  (forall (self : Dispatcher W V) e w t cb,
      NoDup (_lookup self).*1 ->
      type_ e ∉ (_lookup self).*1 ->
      (t, cb) ∈ _lookup self ->
      isinstance supers e t = true ->
      (forall t', t' ∈ (_lookup self).*1 -> isinstance supers e t' = true -> t' = t) ->
      dispatch supers str_expr str_cls self e w = (Return (cb e w).1, (cb e w).2)) /\
  (forall (Ctx : Type) (self : Visitor V Ctx) e ctx t cb,
      NoDup (_registered_handlers self).*1 ->
      type_ e ∉ (_registered_handlers self).*1 ->
      (t, cb) ∈ _registered_handlers self ->
      isinstance supers e t = true ->
      (forall t', t' ∈ (_registered_handlers self).*1 ->
                  isinstance supers e t' = true -> t' = t) ->
      visit supers self e ctx = cb e ctx).
Proof.
  assert (forall (H : Type) (table : list (cls * H)) e t cb,
             NoDup table.*1 -> (t, cb) ∈ table ->
             isinstance supers e t = true ->
             (forall t', t' ∈ table.*1 -> isinstance supers e t' = true -> t' = t) ->
             scan_items supers table e = Some (t, cb)) as Hscan.
  { intros H table e t cb Hnd Hin Ht Huniq.
    destruct (scan_items supers table e) as [[t' cb']|] eqn:Hs.
    - destruct (scan_items_first supers _ _ _ _ Hs)
        as (before & after & Htab & Ht' & _).
      assert ((t', cb') ∈ table) as Hin'.
      { rewrite Htab. apply elem_of_app. right. by left. }
      assert (t' = t) as ->.
      { apply Huniq; [| done]. apply list_elem_of_fmap. by exists (t', cb'). }
      pose proof (dict_get_registered _ _ _ Hnd Hin) as H1.
      pose proof (dict_get_registered _ _ _ Hnd Hin') as H2.
      congruence.
    - pose proof (scan_items_none _ _ Hs t cb Hin). congruence. }
  split.
  - intros self e w t cb Hnd Hno Hin Ht Huniq. unfold dispatch.
    rewrite (dict_get_unregistered _ _ Hno).
    rewrite (Hscan _ _ _ _ _ Hnd Hin Ht Huniq). by destruct (cb e w).
  - intros Ctx self e ctx t cb Hnd Hno Hin Ht Huniq. unfold visit.
    rewrite (dict_get_unregistered _ _ Hno).
    by rewrite (Hscan _ _ _ _ _ Hnd Hin Ht Huniq).
Qed.

End DispatchMore.

Section DispatchMoreRuns.

Import Examples.

Lemma with_sqrt_distinct : NoDup with_sqrt.*1.
Proof. apply (bool_decide_unpack _). vm_compute. exact I. Defined.

Lemma exact_handler_wins_witness :
  NoDup with_sqrt.*1 /\
  ("SqrtExpression", named "on_sqrt") ∈ with_sqrt /\
  dispatch supers str_expr str_cls
           {| _lookup := with_sqrt; _allow_missing := false |} sqrt_x 0%nat =
  (Return (PyObj "on_sqrt"), 1%nat).
Proof.
  assert (("SqrtExpression", named "on_sqrt") ∈ with_sqrt) as Hin.
  { do 2 right. left. }
  split; [exact with_sqrt_distinct |]. split; [exact Hin |].
  apply (proj1 (exact_handler_wins supers str_expr str_cls)
           {| _lookup := with_sqrt; _allow_missing := false |} sqrt_x 0%nat
           (named "on_sqrt") with_sqrt_distinct Hin).
Defined.

Lemma fallback_first_in_iteration_order_witness :
  (type_ sqrt_x ∉ specific_first.*1) /\
  isinstance supers sqrt_x "UnaryFunctionExpression" = true /\
  dispatch supers str_expr str_cls
           {| _lookup := specific_first; _allow_missing := true |} sqrt_x 0%nat =
  (Return (PyObj "on_unary"), 1%nat).
Proof.
  assert (type_ sqrt_x ∉ specific_first.*1) as Hno.
  { apply (bool_decide_unpack _). vm_compute. exact I. }
  split; [exact Hno |]. split; [reflexivity |].
  apply (proj1 (fallback_first_in_iteration_order supers str_expr str_cls)
           {| _lookup := specific_first; _allow_missing := true |} sqrt_x 0%nat
           [] "UnaryFunctionExpression" (named "on_unary")
           [("Expression", named "on_expression")] eq_refl Hno).
  - constructor.
  - reflexivity.
Defined.

Lemma dispatch_outcome_origin_witness :
  dispatch supers str_expr str_cls
           {| _lookup := general_first; _allow_missing := false |} sqrt_x 0%nat =
  (Return (PyObj "on_expression"), 1%nat) /\
  ((exists t cb, (t, cb) ∈ general_first /\ isinstance supers sqrt_x t = true /\
                 cb sqrt_x 0%nat = (PyObj "on_expression", 1%nat)) \/
   (no_handler supers general_first sqrt_x /\ false = true /\
    PyObj "on_expression" = PyNone /\ 1%nat = 0%nat)).
Proof.
  split; [reflexivity |].
  apply (dispatch_outcome_origin supers str_expr str_cls
           {| _lookup := general_first; _allow_missing := false |} sqrt_x
           0%nat 1%nat (Return (PyObj "on_expression")) eq_refl).
Defined.

Lemma fallback_single_match_witness :
  NoDup unary_only.*1 /\
  dispatch supers str_expr str_cls
           {| _lookup := unary_only; _allow_missing := false |} sqrt_x 0%nat =
  (Return (PyObj "on_unary"), 1%nat).
Proof.
  assert (NoDup unary_only.*1) as Hnd.
  { apply (bool_decide_unpack _). vm_compute. exact I. }
  split; [exact Hnd |].
  apply (proj1 (fallback_single_match supers str_expr str_cls)
           {| _lookup := unary_only; _allow_missing := false |} sqrt_x 0%nat
           "UnaryFunctionExpression" (named "on_unary") Hnd).
  - apply (bool_decide_unpack _). vm_compute. exact I.
  - by left.
  - reflexivity.
  - intros t' Hin _. by apply list_elem_of_singleton in Hin.
Defined.

Lemma backward_call_keeps_invariant_witness :
  (visit supers tightener sqrt_x 10).2 <= 10 /\
  (BackwardVisitor_call supers tightener sqrt_x 10).2 <= 10 /\
  (BackwardVisitor_call supers tightener sqrt_x 10).2 = 4.
Proof.
  assert ((visit supers tightener sqrt_x 10).2 <= 10) as Hv.
  { vm_compute. discriminate. }
  split; [exact Hv |]. split; [| reflexivity].
  apply (backward_call_keeps_invariant supers (fun c => c <= 10)
           tightener sqrt_x 10 Hv).
  intros k v c Hc. cbn. lia.
Defined.

End DispatchMoreRuns.

(** * Further properties of the summary *)

Section DictMore.

Context {V : Type}.

Lemma dict_set_fresh (d : dict V) k v :
  k ∉ d.*1 -> dict_set d k v = (d ++ [(k, v)])%list.
Proof.
  induction d as [|[k0 v0] d IH]; cbn; first done.
  intros Hn. destruct (decide (k0 = k)) as [->|_].
  - destruct Hn. by left.
  - rewrite IH; [done |]. intros Hin. apply Hn. by right.
Qed.

Lemma dict_get_map_values {U : Type} (f : V -> U) (d : dict V) k :
  dict_get (map (fun kv => (kv.1, f kv.2)) d) k = f <$> dict_get d k.
Proof.
  induction d as [|[k0 v0] d IH]; cbn; first done.
  by destruct (decide (k0 = k)).
Qed.

End DictMore.

Lemma duplicate_warnings_distinct what (stored : gset string) names :
  NoDup names -> (forall n, n ∈ names -> n ∉ stored) ->
  duplicate_warnings what stored names = [].
Proof.
  intros Hnd. revert stored.
  induction Hnd as [|n names Hfresh _ IH]; intros stored Hout; cbn; first done.
  rewrite bool_decide_eq_false_2 by (apply Hout; by left).
  cbn. apply IH. intros m Hm. rewrite elem_of_union, elem_of_singleton.
  intros [-> | Hs]; [done |]. by apply (Hout m); [right |].
Qed.

Lemma Forall2_filter_length {A B : Type} (R : A -> B -> Prop)
      (P : A -> Prop) (Q : B -> Prop)
      `{forall x, Decision (P x)} `{forall y, Decision (Q y)} l1 l2 :
  Forall2 R l1 l2 -> (forall x y, R x y -> P x <-> Q y) ->
  length (filter P l1) = length (filter Q l2).
Proof.
  intros HR Hiff. induction HR as [|x y l1 l2 Hxy _ IH]; first done.
  rewrite !filter_cons. pose proof (Hiff x y Hxy) as Hpq.
  destruct (decide (P x)), (decide (Q y)); cbn; try tauto; by rewrite IH.
Qed.

Section LoopMore.

Context {A E : Type}.
Variable subscripts_first : bool.
Variable what : string.
Variable checked stored : string * A -> string.
Variable entry : string * A -> outcome E.

#[local] Abbreviation loop' := (store_loop subscripts_first what checked stored entry).

(** A loop over items stored under names that are new and distinct adds
    one entry per item, in order. *)
Lemma store_loop_fresh items d ws d' ws' :
  NoDup (d.*1 ++ (stored <$> items)) ->
  loop' items d ws = (Return d', ws') ->
  exists entries,
    Forall2 (fun kv ke => ke.1 = stored kv /\ entry kv = Return ke.2)
            items entries /\
    d' = (d ++ entries)%list.
Proof.
  revert d ws. induction items as [|kv rest IH]; intros d ws Hnd Hl.
  - cbn in Hl. unfold ret in Hl. injection Hl as <- _.
    exists []. split; [constructor | by rewrite app_nil_r].
  - destruct (entry kv) as [e|x] eqn:He.
    + rewrite (store_loop_step _ _ _ _ _ _ _ _ _ _ He) in Hl.
      assert (stored kv ∉ d.*1) as Hfresh.
      { apply NoDup_app in Hnd as (_ & Hdis & _). intros Hin.
        apply (Hdis _ Hin). by left. }
      rewrite (dict_set_fresh _ _ _ Hfresh) in Hl.
      assert (NoDup ((d ++ [(stored kv, e)])%list.*1 ++ (stored <$> rest))) as Hnd'.
      { rewrite fmap_app, <- app_assoc. exact Hnd. }
      destruct (IH _ _ Hnd' Hl) as (entries & Hall & ->).
      exists ((stored kv, e) :: entries). split.
      * by constructor.
      * by rewrite <- app_assoc.
    + destruct (store_loop_fail subscripts_first what checked stored entry
                  kv rest d ws x He) as [ws1 Hf].
      rewrite Hf in Hl. discriminate.
Qed.

(** A loop raises the exception of the first item whose subscripts
    fail. *)
Lemma store_loop_first_failure before kv after d ws x :
  Forall (returns entry) before -> entry kv = Raise x ->
  exists ws', loop' (before ++ kv :: after) d ws = (Raise x, ws').
Proof.
  intros Hb Hx. revert d ws.
  induction Hb as [|kv' before [e He] _ IH]; intros d ws.
  - by apply store_loop_fail.
  - rewrite <- app_comm_cons, (store_loop_step _ _ _ _ _ _ _ _ _ _ He). apply IH.
Qed.

End LoopMore.

Lemma last_stored_key {A : Type} (key_of : string * A -> string) k items kv :
  last_stored key_of k items = Some kv -> key_of kv = k.
Proof.
  induction items as [|kv' rest IH]; cbn; first done.
  destruct (last_stored key_of k rest) eqn:Hl.
  - intros [= ->]. by apply IH.
  - destruct (decide (key_of kv' = k)); [by intros [= ->] | done].
Qed.

Section SummaryMore.

Context {Ctx : Type} {analysis : Analysis Ctx}.

(** The summary of a problem whose variables and constraints have
    distinct keys and whose objectives have distinct names. *)
Lemma summarise_well_formed problem (ctx : Ctx) polynomial :
  lookups_present problem ctx polynomial ->
  NoDup (problem_variables problem).*1 ->
  NoDup ((fun kv => objective_name kv.2) <$> problem_objectives problem) ->
  NoDup (problem_constraints problem).*1 ->
  exists mi warnings,
    (forall ws, summarise problem ctx polynomial ws =
                (Return mi, (ws ++ warnings)%list)) /\
    name mi = problem_name problem /\
    Forall2 (fun kv ke => ke.1 = kv.1 /\ variable_lookup ctx kv = Return ke.2)
            (problem_variables problem) (variables mi) /\
    Forall2 (fun kv ke => ke.1 = objective_name kv.2 /\
                          objective_lookup ctx polynomial kv = Return ke.2)
            (problem_objectives problem) (objectives mi) /\
    Forall2 (fun kv ke => ke.1 = kv.1 /\
                          constraint_lookup ctx polynomial kv = Return ke.2)
            (problem_constraints problem) (constraints mi) /\
    (Forall (fun kv => variable_name kv.2 = kv.1) (problem_variables problem) ->
     Forall (fun kv => objective_name kv.2 = kv.1) (problem_objectives problem) ->
     warnings = []).
Proof.
  intros Hp Hnv Hno Hnc.
  destruct (summarise_cases problem ctx polynomial [])
    as [(_ & dv & dobj & dc & ws1 & ws2 & ws3 & Hv & Ho & Hc & Hs) | [Hn _]];
    [| done].
  rewrite build_variables_loop in Hv. rewrite build_objectives_loop in Ho.
  rewrite build_constraints_loop in Hc.
  eexists _, ws3. split_and!.
  - intros ws. rewrite summarise_log, Hs. reflexivity.
  - done.
  - destruct (store_loop_fresh _ _ _ _ _ _ [] _ _ _ Hnv Hv) as (entries & Hall & ->).
    exact Hall.
  - destruct (store_loop_fresh _ _ _ _ _ _ [] _ _ _ Hno Ho) as (entries & Hall & ->).
    exact Hall.
  - destruct (store_loop_fresh _ _ _ _ _ _ [] _ _ _ Hnc Hc) as (entries & Hall & ->).
    exact Hall.
  - intros Hvn Hon.
    apply store_loop_warnings in Hv; [| done].
    apply store_loop_warnings in Ho;
      [| by eapply Forall_impl; [exact Hon |]; intros kv ->].
    apply store_loop_warnings in Hc; [| by apply Forall_forall].
    cbn in Hv, Ho, Hc. subst ws1 ws2 ws3.
    rewrite !duplicate_warnings_distinct; [done | ..]; try done;
      intros n _; apply not_elem_of_empty.
Qed.

Lemma variable_lookup_type (ctx : Ctx) kv info :
  variable_lookup ctx kv = Return info ->
  vi_name info = kv.1 /\
  (vi_type info = "binary" <-> is_binary kv.2 = true) /\
  (vi_type info = "integer" <-> is_binary kv.2 = false /\ is_integer kv.2 = true) /\
  (vi_type info = "continuous" <->
   is_binary kv.2 = false /\ is_integer kv.2 = false).
Proof.
  unfold variable_lookup, variable_entry.
  destruct (ctx_bound ctx !! variable_id kv.2) as [b|]; [| done].
  intros [= <-]. cbn.
  destruct (is_binary kv.2), (is_integer kv.2); cbn; split_and!; try done;
    split; try done; intros [? ?]; done.
Qed.

(** X5. For a problem whose variables and constraints have distinct
    keys and whose objectives have distinct names, and whose nodes are
    all found by the subscripts of the summary, the report carries the
    name of the problem and lists one entry per variable, objective and
    constraint, in the order of the problem: a variable and a constraint
    under their key, an objective under its own name, each with the
    values read off the final context. *)
Theorem report_lists_every_item problem max_iter :
  lookups_present problem (final_context problem max_iter)
                  (final_polynomial problem max_iter) ->
  NoDup (problem_variables problem).*1 ->
  NoDup ((fun kv => objective_name kv.2) <$> problem_objectives problem) ->
  NoDup (problem_constraints problem).*1 ->
  exists mi warnings,
    (forall ws, detect_special_structure problem max_iter ws =
                (Return mi, (ws ++ warnings)%list)) /\
    name mi = problem_name problem /\
    Forall2 (fun kv ke =>
               ke.1 = kv.1 /\
               variable_lookup (final_context problem max_iter) kv = Return ke.2)
            (problem_variables problem) (variables mi) /\
    Forall2 (fun kv ke =>
               ke.1 = objective_name kv.2 /\
               objective_lookup (final_context problem max_iter)
                                (final_polynomial problem max_iter) kv =
               Return ke.2)
            (problem_objectives problem) (objectives mi) /\
    Forall2 (fun kv ke =>
               ke.1 = kv.1 /\
               constraint_lookup (final_context problem max_iter)
                                 (final_polynomial problem max_iter) kv =
               Return ke.2)
            (problem_constraints problem) (constraints mi).
Proof.
  intros Hp Hnv Hno Hnc. rewrite detect_special_structure_stages.
  destruct (summarise_well_formed _ _ _ Hp Hnv Hno Hnc)
    as (mi & warnings & Hrun & Hname & Hv & Ho & Hc & _).
  by exists mi, warnings.
Qed.

(** X6. A problem that registers every variable and objective under its
    own name, with distinct keys, is summarised without a warning: the
    log of warnings comes back as it was given. *)
Theorem report_without_warnings problem max_iter :
  lookups_present problem (final_context problem max_iter)
                  (final_polynomial problem max_iter) ->
  NoDup (problem_variables problem).*1 ->
  NoDup (problem_objectives problem).*1 ->
  NoDup (problem_constraints problem).*1 ->
  Forall (fun kv => variable_name kv.2 = kv.1) (problem_variables problem) ->
  Forall (fun kv => objective_name kv.2 = kv.1) (problem_objectives problem) ->
  exists mi,
    forall ws, detect_special_structure problem max_iter ws = (Return mi, ws).
Proof.
  intros Hp Hnv Hno Hnc Hvn Hon. rewrite detect_special_structure_stages.
  assert ((fun kv => objective_name kv.2) <$> problem_objectives problem =
          (problem_objectives problem).*1) as Hnames.
  { clear -Hon. induction Hon as [|kv rest Hkv _ IH]; [done |].
    cbn. by rewrite Hkv, IH. }
  destruct (summarise_well_formed problem _ _ Hp Hnv
              ltac:(by rewrite Hnames) Hnc)
    as (mi & warnings & Hrun & _ & _ & _ & _ & Hw).
  exists mi. intros ws. rewrite Hrun, (Hw Hvn Hon). by rewrite app_nil_r.
Qed.

(** X7. On the report of a problem whose variables and constraints
    have distinct keys, [num_variables] and [num_constraints] are the
    numbers of variables and constraints of the problem, [num_binaries]
    is the number of its binary variables, and [num_integers] the number
    of its variables that are integer and not binary. *)
Theorem report_counts problem max_iter ws mi ws' :
  NoDup (problem_variables problem).*1 ->
  NoDup (problem_constraints problem).*1 ->
  detect_special_structure problem max_iter ws = (Return mi, ws') ->
  num_variables mi = length (problem_variables problem) /\
  num_constraints mi = length (problem_constraints problem) /\
  num_binaries mi =
  length (filter (fun kv => is_binary kv.2 = true) (problem_variables problem)) /\
  num_integers mi =
  length (filter (fun kv => is_binary kv.2 = false /\ is_integer kv.2 = true)
                 (problem_variables problem)).
Proof.
  intros Hnv Hnc. rewrite detect_special_structure_stages. intros Hrun.
  destruct (summarise_cases problem (final_context problem max_iter)
              (final_polynomial problem max_iter) ws)
    as [(_ & dv & dobj & dc & ws1 & ws2 & ws3 & Hv & _ & Hc & Hs)
       | (_ & node & ws1 & Hr)]; [| congruence].
  rewrite Hs in Hrun. injection Hrun as <- _.
  rewrite build_variables_loop in Hv. rewrite build_constraints_loop in Hc.
  destruct (store_loop_fresh _ _ _ _ _ _ [] _ _ _ Hnv Hv) as (ev & Hev & ->).
  destruct (store_loop_fresh _ _ _ _ _ _ [] _ _ _ Hnc Hc) as (ec & Hec & ->).
  clear Hv Hc. rename Hev into Hv. rename Hec into Hc.
  unfold num_variables, num_constraints, num_binaries, num_integers. cbn.
  split_and!.
  - symmetry. by eapply Forall2_length.
  - symmetry. by eapply Forall2_length.
  - symmetry. eapply Forall2_filter_length; [exact Hv |].
    intros kv ke [_ Hl]. symmetry. by apply (variable_lookup_type _ _ _ Hl).
  - symmetry. eapply Forall2_filter_length; [exact Hv |].
    intros kv ke [_ Hl]. symmetry. by apply (variable_lookup_type _ _ _ Hl).
Qed.

End SummaryMore.

Lemma filter_exclusive_length {A : Type} (P Q : A -> Prop)
      `{forall x, Decision (P x)} `{forall x, Decision (Q x)} (l : list A) :
  (forall x, P x -> Q x -> False) ->
  (length (filter P l) + length (filter Q l) <= length l)%nat.
Proof.
  intros Hex. induction l as [|x l IH]; first done.
  rewrite !filter_cons.
  destruct (decide (P x)), (decide (Q x)); cbn; try lia.
  by destruct (Hex x).
Qed.

(** X8. Whatever the report holds, its binary and its integer variables
    are counted apart: together they are at most all the variables. *)
Theorem binaries_and_integers_bounded (mi : ModelInformation) :
  (num_binaries mi + num_integers mi <= num_variables mi)%nat.
Proof.
  unfold num_binaries, num_integers, num_variables.
  apply filter_exclusive_length. intros kv Hb Hi. congruence.
Qed.

Lemma objtype_items_returned items d :
  objtype_items items = Return d ->
  forall k v, (k, v) ∈ items -> exists t, _objtype v = Return t.
Proof.
  revert d. induction items as [|[k0 v0] items IH]; intros d; cbn.
  - intros _ k v Hin. by apply elem_of_nil in Hin.
  - destruct (_objtype v0) as [t|x] eqn:Ht; [| done].
    destruct (objtype_items items) as [d0|x]; [| done].
    intros _ k v Hin. apply elem_of_cons in Hin as [[= -> ->] | Hin]; [eauto |].
    by apply (IH d0 eq_refl k v).
Qed.

Lemma _objtype_values v t :
  _objtype v = Return t ->
  (t = "linear" <-> oi_convexity v = Linear) /\
  (t = "linear" \/ t = "quadratic" \/ t = "polynomial" \/ t = "nonlinear").
Proof.
  unfold _objtype.
  destruct (oi_convexity v); cbn;
    destruct (is_linear (oi_polynomial_degree v)),
      (is_quadratic (oi_polynomial_degree v)),
      (is_polynomial (oi_polynomial_degree v));
    intros [= <-]; split; try (split; intros; done); tauto.
Qed.

(** X9. When [objtype()] returns, it agrees with [objcurvature()]: an
    objective is typed "linear" exactly when its curvature is linear;
    and the types it gives are the four of the code, no other. *)
Theorem objtype_agrees_with_objcurvature (mi : ModelInformation) d :
  objtype mi = Return d ->
  (forall k, dict_get d k = Some "linear" <->
             dict_get (objcurvature mi) k = Some Linear) /\
  (forall k t, dict_get d k = Some t ->
               t = "linear" \/ t = "quadratic" \/ t = "polynomial" \/
               t = "nonlinear").
Proof.
  unfold objtype, objcurvature. intros Hd.
  destruct (objtype_items_get _ _ Hd) as [_ Hg].
  assert (forall k v, dict_get (objectives mi) k = Some v ->
                      exists t, _objtype v = Return t) as Hret.
  { intros k v Hkv. apply (objtype_items_returned _ _ Hd k v).
    by apply dict_get_elem. }
  split.
  - intros k. rewrite Hg, dict_get_map_values.
    destruct (dict_get (objectives mi) k) as [v|] eqn:Hkv; cbn; [| done].
    destruct (Hret k v Hkv) as [t Ht]. rewrite Ht. cbn.
    destruct (_objtype_values v t Ht) as [Hl _].
    split; intros [= Heq]; f_equal; by apply Hl.
  - intros k t. rewrite Hg.
    destruct (dict_get (objectives mi) k) as [v|] eqn:Hkv; cbn; [| done].
    destruct (Hret k v Hkv) as [t' Ht]. rewrite Ht. cbn. intros [= <-].
    by apply (_objtype_values v t').
Qed.

Section LoopMoreFacts.

Context {Ctx : Type} {analysis : Analysis Ctx}.

Lemma bound_loop_prefix problem n m (ctx : Ctx) changes_tigh :
  (n <= m)%nat ->
  (bound_loop problem n ctx changes_tigh).2 `prefix_of`
  (bound_loop problem m ctx changes_tigh).2.
Proof.
  revert m ctx changes_tigh. induction n as [|n IH]; intros m ctx ct Hle; cbn.
  - apply prefix_nil.
  - destruct m as [|m]; [lia |]. cbn.
    destruct (bound_round problem ctx ct) as [[cp ct'] ctx'].
    destruct (no_change cp ct'); cbn; [done |].
    specialize (IH m ctx' (Some ct') ltac:(lia)).
    destruct (bound_loop problem n ctx' (Some ct')) as [c1 r1].
    destruct (bound_loop problem m ctx' (Some ct')) as [c2 r2]. cbn in *.
    by apply prefix_cons.
Qed.

Lemma bound_loop_converged problem n m (ctx : Ctx) changes_tigh r :
  (n <= m)%nat ->
  last (bound_loop problem n ctx changes_tigh).2 = Some r ->
  no_change r.1 r.2 = true ->
  bound_loop problem m ctx changes_tigh = bound_loop problem n ctx changes_tigh.
Proof.
  revert m ctx changes_tigh. induction n as [|n IH]; intros m ctx ct Hle; cbn.
  - done.
  - destruct m as [|m]; [lia |]. cbn.
    destruct (bound_round problem ctx ct) as [[cp ct'] ctx'].
    destruct (no_change cp ct') eqn:Hnc; cbn; [done |].
    specialize (IH m ctx' (Some ct') ltac:(lia)).
    destruct (bound_loop problem n ctx' (Some ct')) as [c1 r1]. cbn in *.
    intros Hlast Hr. destruct r1 as [|r0 r1].
    + cbn in Hlast. injection Hlast as <-. cbn in Hr. congruence.
    + rewrite IH; [done | | done]. by rewrite last_cons_cons in Hlast.
Qed.

(** X10. A [max_iter] of zero or less runs no round at all: neither
    pass of the loop is called, and the summary is assembled from the
    context [initialize_bounds] made, as with [max_iter] zero. *)
Theorem nonpositive_max_iter_runs_no_round problem max_iter :
  max_iter <= 0 ->
  loop_rounds problem max_iter = [] /\
  loop_context problem max_iter = initialize_bounds problem /\
  detect_special_structure problem max_iter = detect_special_structure problem 0.
Proof.
  intros Hle. unfold loop_rounds, loop_context, detect_special_structure.
  assert (Z.to_nat max_iter = 0%nat) as -> by lia. done.
Qed.

(** X11. Raising [max_iter] only adds rounds: the rounds executed under
    a smaller [max_iter] are the first rounds executed under a larger
    one, with the same reports. *)
Theorem rounds_extend_with_max_iter problem max_iter max_iter' :
  max_iter <= max_iter' ->
  loop_rounds problem max_iter `prefix_of` loop_rounds problem max_iter'.
Proof.
  intros Hle. unfold loop_rounds. apply bound_loop_prefix. lia.
Qed.

(** X12. Once the loop has ended on a round without change, a larger
    [max_iter] changes nothing: the same rounds are executed, the loop
    ends with the same context, and [detect_special_structure] returns
    the same report with the same warnings. *)
Theorem converged_run_ignores_larger_max_iter problem max_iter max_iter'
        changes_prop changes_tigh :
  max_iter <= max_iter' ->
  last (loop_rounds problem max_iter) = Some (changes_prop, changes_tigh) ->
  length changes_prop = 0%nat -> length changes_tigh = 0%nat ->
  loop_rounds problem max_iter' = loop_rounds problem max_iter /\
  loop_context problem max_iter' = loop_context problem max_iter /\
  detect_special_structure problem max_iter' =
  detect_special_structure problem max_iter.
Proof.
  intros Hle Hlast Hp Ht.
  assert (bound_loop problem (Z.to_nat max_iter') (initialize_bounds problem) None =
          bound_loop problem (Z.to_nat max_iter) (initialize_bounds problem) None)
    as Heq.
  { eapply bound_loop_converged; [lia | exact Hlast |].
    cbn. by apply no_change_spec. }
  rewrite !detect_special_structure_stages.
  unfold final_context, final_polynomial, loop_context, loop_rounds.
  by rewrite Heq.
Qed.

(** X13. The subscripts of the summary are tried in the order of the
    code, variables first, then objectives, then constraints, and the
    first that fails ends the run: the [KeyError] raised is that of the
    first variable without a bound; if every variable has one, that of
    the first objective without a convexity or a degree; and if every
    objective has both, that of the first such constraint. *)
Theorem first_missing_node_raises problem max_iter ws :
  (forall before kv after,
      problem_variables problem = (before ++ kv :: after)%list ->
      Forall (fun kv' => is_Some (ctx_bound (final_context problem max_iter)
                                    !! variable_id kv'.2)) before ->
      ctx_bound (final_context problem max_iter) !! variable_id kv.2 = None ->
      exists ws', detect_special_structure problem max_iter ws =
                  (Raise (KeyError (variable_id kv.2)), ws')) /\
  (forall before kv after,
      Forall (fun kv' => is_Some (ctx_bound (final_context problem max_iter)
                                    !! variable_id kv'.2))
             (problem_variables problem) ->
      problem_objectives problem = (before ++ kv :: after)%list ->
      Forall (fun kv' =>
                is_Some (ctx_convexity (final_context problem max_iter)
                           !! objective_id kv'.2) /\
                is_Some (final_polynomial problem max_iter
                           !! objective_id kv'.2)) before ->
      ctx_convexity (final_context problem max_iter) !! objective_id kv.2 = None \/
      final_polynomial problem max_iter !! objective_id kv.2 = None ->
      exists ws', detect_special_structure problem max_iter ws =
                  (Raise (KeyError (objective_id kv.2)), ws')) /\
  (forall before kv after,
      Forall (fun kv' => is_Some (ctx_bound (final_context problem max_iter)
                                    !! variable_id kv'.2))
             (problem_variables problem) ->
      Forall (fun kv' =>
                is_Some (ctx_convexity (final_context problem max_iter)
                           !! objective_id kv'.2) /\
                is_Some (final_polynomial problem max_iter
                           !! objective_id kv'.2))
             (problem_objectives problem) ->
      problem_constraints problem = (before ++ kv :: after)%list ->
      Forall (fun kv' =>
                is_Some (ctx_convexity (final_context problem max_iter)
                           !! constraint_id kv'.2) /\
                is_Some (final_polynomial problem max_iter
                           !! constraint_id kv'.2)) before ->
      ctx_convexity (final_context problem max_iter) !! constraint_id kv.2 = None \/
      final_polynomial problem max_iter !! constraint_id kv.2 = None ->
      exists ws', detect_special_structure problem max_iter ws =
                  (Raise (KeyError (constraint_id kv.2)), ws')).
Proof.
  rewrite detect_special_structure_stages.
  set (ctx := final_context problem max_iter).
  set (polynomial := final_polynomial problem max_iter).
  assert (forall kv, ctx_convexity ctx !! objective_id kv.2 = None \/
                     polynomial !! objective_id kv.2 = None ->
                     objective_lookup ctx polynomial kv =
                     Raise (KeyError (objective_id kv.2))) as Hobj.
  { intros kv Hm. unfold objective_lookup.
    destruct (ctx_convexity ctx !! objective_id kv.2); [| done].
    destruct (polynomial !! objective_id kv.2); [| done].
    by destruct Hm. }
  assert (forall kv, ctx_convexity ctx !! constraint_id kv.2 = None \/
                     polynomial !! constraint_id kv.2 = None ->
                     constraint_lookup ctx polynomial kv =
                     Raise (KeyError (constraint_id kv.2))) as Hcons.
  { intros kv Hm. unfold constraint_lookup.
    destruct (ctx_convexity ctx !! constraint_id kv.2); [| done].
    destruct (polynomial !! constraint_id kv.2); [| done].
    by destruct Hm. }
  unfold summarise, bind. split_and!.
  - intros before kv after Hitems Hb Hm.
    rewrite build_variables_loop, Hitems.
    destruct (store_loop_first_failure true "Duplicate variable "
                (fun kv => variable_name kv.2) fst (variable_lookup ctx)
                before kv after [] ws (KeyError (variable_id kv.2))) as [ws1 ->].
    + eapply Forall_impl; [exact Hb |]. intros kv'. apply variable_lookup_returns.
    + unfold variable_lookup. by rewrite Hm.
    + eauto.
  - intros before kv after Hv Hitems Hb Hm.
    rewrite build_variables_loop.
    destruct (store_loop_total true "Duplicate variable "
                (fun kv => variable_name kv.2) fst (variable_lookup ctx)
                (problem_variables problem) [] ws) as (dv & ws1 & ->).
    { eapply Forall_impl; [exact Hv |]. intros kv'. apply variable_lookup_returns. }
    rewrite build_objectives_loop, Hitems.
    destruct (store_loop_first_failure false "Duplicate objective " fst
                (fun kv => objective_name kv.2) (objective_lookup ctx polynomial)
                before kv after [] ws1 (KeyError (objective_id kv.2))) as [ws2 ->].
    + eapply Forall_impl; [exact Hb |]. intros kv'. apply objective_lookup_returns.
    + by apply Hobj.
    + eauto.
  - intros before kv after Hv Ho Hitems Hb Hm.
    rewrite build_variables_loop.
    destruct (store_loop_total true "Duplicate variable "
                (fun kv => variable_name kv.2) fst (variable_lookup ctx)
                (problem_variables problem) [] ws) as (dv & ws1 & ->).
    { eapply Forall_impl; [exact Hv |]. intros kv'. apply variable_lookup_returns. }
    rewrite build_objectives_loop.
    destruct (store_loop_total false "Duplicate objective " fst
                (fun kv => objective_name kv.2) (objective_lookup ctx polynomial)
                (problem_objectives problem) [] ws1) as (dobj & ws2 & ->).
    { eapply Forall_impl; [exact Ho |]. intros kv'. apply objective_lookup_returns. }
    rewrite build_constraints_loop, Hitems.
    destruct (store_loop_first_failure false "Duplicate constraint " fst fst
                (constraint_lookup ctx polynomial)
                before kv after [] ws2 (KeyError (constraint_id kv.2))) as [ws3 ->].
    + eapply Forall_impl; [exact Hb |]. intros kv'. apply constraint_lookup_returns.
    + by apply Hcons.
    + eauto.
Qed.

Lemma bound_loop_context problem n (ctx : Ctx) changes_tigh :
  (bound_loop problem n ctx changes_tigh).1 =
  rounds_unchecked problem (length (bound_loop problem n ctx changes_tigh).2)
                   ctx changes_tigh.
Proof.
  revert ctx changes_tigh. induction n as [|n IH]; intros ctx ct; cbn; first done.
  destruct (bound_round problem ctx ct) as [[cp ct'] ctx'] eqn:Hr.
  destruct (no_change cp ct'); cbn.
  - by rewrite Hr.
  - specialize (IH ctx' (Some ct')).
    destruct (bound_loop problem n ctx' (Some ct')) as [c1 r1]. cbn in *.
    by rewrite Hr.
Qed.

(** X14. The context the loop ends with is the context of as many
    rounds of propagate and tighten as it executed, each round given the
    changes the tightening of the round before reported and the first
    round given [None]; the test of the loop decides how many rounds run
    and touches nothing. *)
Theorem loop_context_of_rounds_executed problem max_iter :
  loop_context problem max_iter =
  rounds_unchecked problem (length (loop_rounds problem max_iter))
                   (initialize_bounds problem) None.
Proof.
  unfold loop_context, loop_rounds. apply bound_loop_context.
Qed.

(** X15. On a report that [detect_special_structure] returns,
    [conscurvature()] gives under each name the convexity the final
    context holds for the last constraint stored under that name, and
    [objcurvature()] the convexity it holds for the last objective that
    carries that name. *)
Theorem report_curvatures problem max_iter ws mi ws' :
  detect_special_structure problem max_iter ws = (Return mi, ws') ->
  (forall k, dict_get (conscurvature mi) k =
             last_stored fst k (problem_constraints problem) ≫=
             fun kv => ctx_convexity (final_context problem max_iter)
                         !! constraint_id kv.2) /\
  (forall k, dict_get (objcurvature mi) k =
             last_stored (fun kv => objective_name kv.2) k
                         (problem_objectives problem) ≫=
             fun kv => ctx_convexity (final_context problem max_iter)
                         !! objective_id kv.2).
Proof.
  rewrite detect_special_structure_stages.
  set (ctx := final_context problem max_iter).
  set (polynomial := final_polynomial problem max_iter).
  intros Hrun.
  destruct (summarise_cases problem ctx polynomial ws)
    as [(Hp & dv & dobj & dc & ws1 & ws2 & ws3 & _ & Ho & Hc & Hs)
       | (_ & node & ws1 & Hr)]; [| congruence].
  rewrite Hs in Hrun. injection Hrun as <- _.
  destruct Hp as (_ & Hpo & Hpc).
  rewrite Forall_forall in Hpo. rewrite Forall_forall in Hpc.
  unfold conscurvature, objcurvature. cbn. split; intros k;
    rewrite dict_get_map_values.
  - rewrite build_constraints_loop in Hc.
    rewrite (store_loop_last _ _ _ _ _ _ _ _ _ _ Hc k).
    destruct (last_stored fst k (problem_constraints problem)) as [kv|] eqn:Hl;
      cbn; [| done].
    destruct (Hpc kv (last_stored_elem _ _ _ _ Hl)) as [[cvx Hcv] [poly Hd]].
    unfold constraint_lookup. by rewrite Hcv, Hd.
  - rewrite build_objectives_loop in Ho.
    rewrite (store_loop_last _ _ _ _ _ _ _ _ _ _ Ho k).
    destruct (last_stored _ k (problem_objectives problem)) as [kv|] eqn:Hl;
      cbn; [| done].
    destruct (Hpo kv (last_stored_elem _ _ _ _ Hl)) as [[cvx Hcv] [poly Hd]].
    unfold objective_lookup. by rewrite Hcv, Hd.
Qed.

(** X16. In a report that [detect_special_structure] returns, the entry
    of a variable carries as its name the key it is stored under and as
    its type one of "binary", "integer" and "continuous"; the sense of
    an objective is "min" or "max"; the type of a constraint is
    "equality" or "inequality". *)
Theorem report_entry_fields problem max_iter ws mi ws' :
  detect_special_structure problem max_iter ws = (Return mi, ws') ->
  (forall k info, dict_get (variables mi) k = Some info ->
                  vi_name info = k /\
                  (vi_type info = "binary" \/ vi_type info = "integer" \/
                   vi_type info = "continuous")) /\
  (forall k info, dict_get (objectives mi) k = Some info ->
                  oi_sense info = "min" \/ oi_sense info = "max") /\
  (forall k info, dict_get (constraints mi) k = Some info ->
                  ci_type info = "equality" \/ ci_type info = "inequality").
Proof.
  rewrite detect_special_structure_stages.
  set (ctx := final_context problem max_iter).
  set (polynomial := final_polynomial problem max_iter).
  intros Hrun.
  destruct (summarise_cases problem ctx polynomial ws)
    as [(_ & dv & dobj & dc & ws1 & ws2 & ws3 & Hv & Ho & Hc & Hs)
       | (_ & node & ws1 & Hr)]; [| congruence].
  rewrite Hs in Hrun. injection Hrun as <- _. cbn.
  rewrite build_variables_loop in Hv. rewrite build_objectives_loop in Ho.
  rewrite build_constraints_loop in Hc.
  split_and!; intros k info.
  - rewrite (store_loop_last _ _ _ _ _ _ _ _ _ _ Hv k).
    destruct (last_stored fst k (problem_variables problem)) as [kv|] eqn:Hl;
      cbn; [| done].
    apply last_stored_key in Hl.
    unfold variable_lookup, variable_entry.
    destruct (ctx_bound ctx !! variable_id kv.2); cbn; [| done].
    intros [= <-]. cbn. split; [done |].
    destruct (is_binary kv.2), (is_integer kv.2); tauto.
  - rewrite (store_loop_last _ _ _ _ _ _ _ _ _ _ Ho k).
    destruct (last_stored _ k (problem_objectives problem)) as [kv|];
      cbn; [| done].
    unfold objective_lookup, objective_entry.
    destruct (ctx_convexity ctx !! objective_id kv.2); cbn; [| done].
    destruct (polynomial !! objective_id kv.2); cbn; [| done].
    intros [= <-]. cbn. destruct (is_minimizing kv.2); tauto.
  - rewrite (store_loop_last _ _ _ _ _ _ _ _ _ _ Hc k).
    destruct (last_stored fst k (problem_constraints problem)) as [kv|];
      cbn; [| done].
    unfold constraint_lookup, constraint_entry.
    destruct (ctx_convexity ctx !! constraint_id kv.2); cbn; [| done].
    destruct (polynomial !! constraint_id kv.2); cbn; [| done].
    intros [= <-]. cbn. destruct (is_equality kv.2); tauto.
Qed.

End LoopMoreFacts.

(** ** On the small problem *)

Section SummaryMoreRuns.

Import Examples.

Lemma small_variables_distinct : NoDup (problem_variables small_problem).*1.
Proof. apply (bool_decide_unpack _). vm_compute. exact I. Defined.

Lemma small_objectives_distinct : NoDup (problem_objectives small_problem).*1.
Proof. apply (bool_decide_unpack _). vm_compute. exact I. Defined.

Lemma small_objective_names_distinct :
  NoDup ((fun kv => objective_name kv.2) <$> problem_objectives small_problem).
Proof. apply (bool_decide_unpack _). vm_compute. exact I. Defined.

Lemma small_constraints_distinct : NoDup (problem_constraints small_problem).*1.
Proof. apply (bool_decide_unpack _). vm_compute. exact I. Defined.

Lemma small_lookups :
  @lookups_present _ (toy (small_context 0)) small_problem
    (@final_context _ (toy (small_context 0)) small_problem 10)
    (@final_polynomial _ (toy (small_context 0)) small_problem 10).
Proof.
  repeat split; repeat constructor; cbn; by eexists.
Defined.

Lemma report_lists_every_item_witness :
  exists mi warnings,
    (forall ws, @detect_special_structure _ (toy (small_context 0))
                  small_problem 10 ws = (Return mi, (ws ++ warnings)%list)) /\
    name mi = "small".
Proof.
  destruct (@report_lists_every_item _ (toy (small_context 0)) small_problem 10
              small_lookups small_variables_distinct
              small_objective_names_distinct small_constraints_distinct)
    as (mi & warnings & Hrun & Hname & _).
  by exists mi, warnings.
Defined.

Lemma report_without_warnings_witness :
  exists mi,
    forall ws, @detect_special_structure _ (toy (small_context 0))
                 small_problem 10 ws = (Return mi, ws).
Proof.
  apply (@report_without_warnings _ (toy (small_context 0)) small_problem 10
           small_lookups small_variables_distinct small_objectives_distinct
           small_constraints_distinct);
    repeat constructor.
Defined.

Lemma report_counts_witness :
  exists mi,
    @detect_special_structure _ (toy (small_context 0)) small_problem 10 [] =
    (Return mi, []) /\
    num_variables mi = 2%nat /\ num_constraints mi = 1%nat /\
    num_binaries mi = 1%nat /\ num_integers mi = 0%nat.
Proof.
  eexists. split; [reflexivity |].
  apply (@report_counts _ (toy (small_context 0)) small_problem 10 [] _ []
           small_variables_distinct small_constraints_distinct eq_refl).
Defined.

Lemma objtype_agrees_with_objcurvature_witness :
  objtype unknown_linear = Return [("obj", "polynomial")] /\
  (dict_get [("obj", "polynomial")] "obj" = Some "linear" <->
   dict_get (objcurvature unknown_linear) "obj" = Some Linear).
Proof.
  split; [reflexivity |].
  apply (objtype_agrees_with_objcurvature unknown_linear
           [("obj", "polynomial")] eq_refl).
Defined.

Lemma nonpositive_max_iter_runs_no_round_witness :
  -3 <= 0 /\
  @loop_rounds _ (toy (small_context 100)) small_problem (-3) = [].
Proof.
  split; [lia |].
  apply (@nonpositive_max_iter_runs_no_round _ (toy (small_context 100))
           small_problem (-3)).
  lia.
Defined.

Lemma rounds_extend_with_max_iter_witness :
  2 <= 10 /\
  @loop_rounds _ (toy (small_context 100)) small_problem 2 `prefix_of`
  @loop_rounds _ (toy (small_context 100)) small_problem 10.
Proof.
  split; [lia |].
  apply (@rounds_extend_with_max_iter _ (toy (small_context 100))
           small_problem 2 10).
  lia.
Defined.

Lemma converged_run_ignores_larger_max_iter_witness :
  5 <= 10 /\
  last (@loop_rounds _ (toy (small_context 2)) small_problem 5) = Some ([], []) /\
  @detect_special_structure _ (toy (small_context 2)) small_problem 10 =
  @detect_special_structure _ (toy (small_context 2)) small_problem 5.
Proof.
  split; [lia |]. split; [reflexivity |].
  apply (@converged_run_ignores_larger_max_iter _ (toy (small_context 2))
           small_problem 5 10 [] []); [lia | reflexivity | reflexivity | reflexivity].
Defined.

Lemma first_missing_node_raises_witness :
  exists ws',
    @detect_special_structure _ (toy unbounded_variable_context)
      small_problem 10 [] = (Raise (KeyError 2), ws').
Proof.
  apply (proj1 (@first_missing_node_raises _ (toy unbounded_variable_context)
                  small_problem 10 [])
           [("x", {| variable_id := 1; variable_name := "x"; domain := REALS |})]
           ("b", {| variable_id := 2; variable_name := "b"; domain := BINARY |})
           [] eq_refl).
  - repeat constructor. by eexists.
  - reflexivity.
Defined.

Lemma report_curvatures_witness :
  exists mi,
    @detect_special_structure _ (toy (small_context 0)) small_problem 10 [] =
    (Return mi, []) /\
    dict_get (conscurvature mi) "c1" = Some Linear /\
    dict_get (objcurvature mi) "obj" = Some Convex.
Proof.
  eexists. split; [reflexivity |].
  destruct (@report_curvatures _ (toy (small_context 0)) small_problem 10 []
              _ [] eq_refl) as [Hc Ho].
  split; [apply (Hc "c1") | apply (Ho "obj")].
Defined.

Lemma report_entry_fields_witness :
  exists mi info,
    @detect_special_structure _ (toy (small_context 0)) small_problem 10 [] =
    (Return mi, []) /\
    dict_get (variables mi) "b" = Some info /\
    vi_name info = "b" /\
    (vi_type info = "binary" \/ vi_type info = "integer" \/
     vi_type info = "continuous").
Proof.
  eexists _, _. split; [reflexivity |]. split; [reflexivity |].
  apply (proj1 (@report_entry_fields _ (toy (small_context 0)) small_problem 10 []
                  _ [] eq_refl) "b").
  reflexivity.
Defined.

End SummaryMoreRuns.
